(** * dataset_check.py: sampling image/caption pairs from streamed datasets

    A shallow embedding of [save_dataset_examples] and
    [process_all_datasets] of [src/dataset_check.py], and the properties of
    the sampler, the field-detection heuristics, the caption rendering and
    the driver.

    Python dictionaries keep insertion order and the fallback scan of a
    record depends on it, so a record is an association list.  Everything
    the script obtains from outside (the dataset hub, the streaming
    iterator, the random generator, the image library, the file system) is
    gathered in one interface, [External]; the functions of the script are
    written over it and return, next to their result, the chronological
    list of effects they performed. *)

From Stdlib Require Import ZArith List Ascii String Decimal DecimalNat DecimalString Lia.
From stdpp Require Import base option list strings gmap.
Import ListNotations.

Local Open Scope string_scope.
Local Open Scope list_scope.
Local Open Scope nat_scope.

(** ** Python values *)

Local Set Warnings "-register-all".

(** The values a streamed record can hold.  [VObj ty repr] stands for an
    instance of any other class (a decoded [PIL] image, a float, ...),
    given by the name of its class and its printed form. *)
Inductive value : Type :=
| VNone
| VInt (z : Z)
| VStr (s : string)
| VBytes (b : list Byte.byte)
| VList (l : list value)
| VDict (d : list (string * value))
| VObj (ty : string) (repr : string).

(** A record ([example] in the source): a [dict] with string keys, in
    insertion order. *)
Definition record : Type := list (string * value).

(** [field in example] *)
Fixpoint dict_has (d : list (string * value)) (field : string) : bool :=
  match d with
  | [] => false
  | (k, _) :: d' => if String.eqb k field then true else dict_has d' field
  end.

(** [example[field]] ([None] is Python's [KeyError]) *)
Fixpoint dict_get (d : list (string * value)) (field : string) : option value :=
  match d with
  | [] => None
  | (k, v) :: d' => if String.eqb k field then Some v else dict_get d' field
  end.

(** [key in [..]] for a list of strings *)
Fixpoint str_in (key : string) (names : list string) : bool :=
  match names with
  | [] => false
  | n :: names' => if String.eqb key n then true else str_in key names'
  end.

Definition is_bytes (v : value) : bool :=
  match v with VBytes _ => true | _ => false end.

Definition is_dict (v : value) : bool :=
  match v with VDict _ => true | _ => false end.

Definition is_list_value (v : value) : bool :=
  match v with VList _ => true | _ => false end.

(** [type(v)] as the f-string prints it *)
Definition type_name (v : value) : string :=
  match v with
  | VNone => "NoneType"
  | VInt _ => "int"
  | VStr _ => "str"
  | VBytes _ => "bytes"
  | VList _ => "list"
  | VDict _ => "dict"
  | VObj ty _ => ty
  end.

Definition type_str (v : value) : string :=
  "<class '" +:+ type_name v +:+ "'>".

(** ** Strings *)

(** [str(n)] for a natural number: its decimal digits. *)
Definition str_nat (n : nat) : string :=
  NilEmpty.string_of_uint (Nat.to_uint n).

(** [s.split(sep)]: the segments between separators; never empty. *)
Fixpoint str_split (sep : ascii) (s : string) : list string :=
  match s with
  | EmptyString => [EmptyString]
  | String c s' =>
      if Ascii.eqb c sep then EmptyString :: str_split sep s'
      else match str_split sep s' with
           | [] => [String c EmptyString]
           | seg :: segs => String c seg :: segs
           end
  end.

(** [sep.join(lines)] *)
Fixpoint join (sep : string) (lines : list string) : string :=
  match lines with
  | [] => ""
  | [l] => l
  | l :: ((_ :: _) as rest) => l +:+ sep +:+ join sep rest
  end.

(** [os.path.join(dir, name)] for a relative [name] (POSIX separator). *)
Definition path_join (dir name : string) : string := dir +:+ "/" +:+ name.

Definition newline : string := String (ascii_of_nat 10) EmptyString.

(** ** Field detection (lines 86-105 and 121-132) *)

Definition possible_image_fields : list string :=
  ["image"; "img"; "images"; "image_data"; "photo"].

Definition possible_text_fields : list string :=
  ["text"; "caption"; "captions"; "description"; "descriptions"; "title"].

Definition excluded_keys : list string := ["text"; "caption"; "label"].

(** [for field in fields: if field in example: ... break]: the first
    candidate name that is a key of the record, with its value. *)
Fixpoint first_present (fields : list string) (example : record)
  : option (string * value) :=
  match fields with
  | [] => None
  | field :: fields' =>
      if dict_has example field then
        match dict_get example field with
        | Some v => Some (field, v)
        | None => None
        end
      else first_present fields' example
  end.

(** [for key, value in example.items(): if isinstance(value, (bytes, dict))
    and key not in ['text', 'caption', 'label']: ... break] *)
Fixpoint scan_items (items : list (string * value)) : option (string * value) :=
  match items with
  | [] => None
  | (key, v) :: items' =>
      if (is_bytes v || is_dict v) && negb (str_in key excluded_keys)
      then Some (key, v)
      else scan_items items'
  end.

(** The image field and its data after lines 86-105; [None] when
    [image_field] is still [None]. *)
Definition find_image_field (example : record) : option (string * value) :=
  match first_present possible_image_fields example with
  | Some fv => Some fv
  | None => scan_items example
  end.

Definition find_text_field (example : record) : option (string * value) :=
  first_present possible_text_fields example.

(** ** The outside world *)

(** The exceptions the script tells apart: [ValueError], which
    [load_dataset] raises for a split that does not exist, and every other
    subclass of [Exception]. *)
Inductive exn : Type :=
| ValueError (msg : string)
| OtherException (msg : string).

(** [str(e)] *)
Definition exn_str (e : exn) : string :=
  match e with ValueError msg | OtherException msg => msg end.

(** One [next(dataset_iter)] that is not [StopIteration]: an example, or
    an exception raised while fetching it. An exhausted iterator is the
    empty list. *)
Inductive fetched : Type :=
| Fetched (example : record)
| FetchError (e : exn).

(** [with open(path, 'w') as f: f.write(caption)]: the text is written, or
    [open] raises and no file appears, or the write raises after the file
    was created, leaving [written] in it. *)
Inductive write_outcome : Type :=
| WriteOk
| OpenFails (e : exn)
| WriteFails (written : string) (e : exn).

Inductive outcome (A : Type) : Type :=
| Returned (a : A)
| Raised (e : exn).
Arguments Returned {A} a.
Arguments Raised {A} e.

Inductive level : Type := DEBUG | INFO | SUCCESS | WARNING | ERROR.

(** What the script imports: [huggingface_hub.login], [os.makedirs],
    [datasets.load_dataset] with [streaming=True], the choice of positions
    made by [random.sample] (over a generator state),
    [Image.open(io.BytesIO(v))], [image.save(path)], the writing of a text
    file, and [str] on values that are not strings.

    [load_dataset name split] is the call with [split=split]: it returns
    one iterable dataset, a stream of examples.  [load_dataset_dict name]
    is the call without [split]: the library then returns a dict from the
    names of the splits to their iterable datasets, not a dataset. *)
Record External : Type := {
  image : Type;
  rng : Type;
  py_repr : value -> string;
  hub_login : string -> option exn;
  makedirs : string -> option exn;
  load_dataset : string -> string -> exn + list fetched;
  load_dataset_dict : string -> exn + list (string * list fetched);
  sample_indices : rng -> nat -> nat -> list nat * rng;
  image_open : value -> exn + image;
  image_save : image -> string -> option exn;
  write_text : string -> string -> write_outcome
}.

(** The documented contract of [random.sample(population, k)] for
    [0 <= k <= len(population)]: [k] positions of the population, no
    position taken twice. *)
Definition sample_contract (X : External) : Prop :=
  forall (g : rng X) (n k : nat), k <= n ->
    let idxs := fst (sample_indices X g n k) in
    length idxs = k /\ NoDup idxs /\ Forall (fun i => i < n) idxs.

(** The effects of a run, in the order they happen: a call of the
    logger, the login, a directory created, a call of [load_dataset]
    (successful or not), an image file saved, a text file left with some
    content. *)
Inductive event (X : External) : Type :=
| Logged (lvl : level) (msg : string)
| LoggedIn (token : string)
| DirMade (path : string)
| LoadCall (name : string) (split : option string)
| ImageSaved (path : string) (img : image X)
| TextWritten (path : string) (content : string).
Arguments Logged {X} lvl msg.
Arguments LoggedIn {X} token.
Arguments DirMade {X} path.
Arguments LoadCall {X} name split.
Arguments ImageSaved {X} path img.
Arguments TextWritten {X} path content.

(** The files of the output directories. *)
Inductive file (X : External) : Type :=
| ImageFile (img : image X)
| TextFile (content : string).
Arguments ImageFile {X} img.
Arguments TextFile {X} content.

Definition apply_event {X : External} (fs : gmap string (file X)) (ev : event X)
  : gmap string (file X) :=
  match ev with
  | ImageSaved path img => <[path := ImageFile img]> fs
  | TextWritten path content => <[path := TextFile content]> fs
  | _ => fs
  end.

(** The file system after the effects [evs], from [fs]. *)
Definition files_after {X : External} (fs : gmap string (file X)) (evs : list (event X))
  : gmap string (file X) :=
  fold_left apply_event evs fs.

Definition is_file_event {X : External} (ev : event X) : bool :=
  match ev with
  | ImageSaved _ _ | TextWritten _ _ => true
  | _ => false
  end.

Definition is_error_log {X : External} (ev : event X) : bool :=
  match ev with
  | Logged ERROR _ => true
  | _ => false
  end.

(** What the script holds in [dataset] after lines 37-51: an iterable
    dataset, or the dict of splits.  Iterating the first delivers examples;
    iterating a dict delivers its keys, here the names of the splits. *)
Inductive source : Type :=
| Stream (dataset : list fetched)
| SplitDict (splits : list (string * list fetched)).

(** [needle in hay] for two strings: [needle] occurs in [hay]. *)
Fixpoint is_substring (needle hay : string) : bool :=
  match hay with
  | EmptyString => String.prefix needle hay
  | String _ hay' => String.prefix needle hay || is_substring needle hay'
  end.

(** ** The script *)

Section Script.

Context (X : External).

Local Abbreviation trace := (list (event X)).

(** The prefix [f"[{folder_name}] "] of the log messages. *)
Definition tagged (folder_name msg : string) : string :=
  "[" +:+ folder_name +:+ "] " +:+ msg.

(** [str(v)], also what [{item}] prints in an f-string. *)
Definition py_str (v : value) : string :=
  match v with
  | VStr s => s
  | _ => py_repr X v
  end.

(** Line 28: [dataset_name.split('/')[-1]] *)
Definition folder_of (dataset_name : string) : string :=
  List.last (str_split "/"%char dataset_name) "".

(** Lines 37-51: what [dataset] is bound to, or [None] where the
    function returns 0. *)
Definition open_dataset (folder_name dataset_name : string)
  : option source * trace :=
  match load_dataset X dataset_name "train" with
  | inr dataset => (Some (Stream dataset), [LoadCall dataset_name (Some "train")])
  | inl (ValueError _) =>
      match load_dataset_dict X dataset_name with
      | inr splits =>
          (Some (SplitDict splits),
           [LoadCall dataset_name (Some "train");
            LoadCall dataset_name None;
            Logged WARNING
              (tagged folder_name "'train' split not found, using default split")])
      | inl e =>
          (None,
           [LoadCall dataset_name (Some "train");
            LoadCall dataset_name None;
            Logged ERROR
              (tagged folder_name ("Failed to load dataset: " +:+ exn_str e))])
      end
  | inl e =>
      (None,
       [LoadCall dataset_name (Some "train");
        Logged ERROR
          (tagged folder_name
             ("Error occurred while loading dataset: " +:+ exn_str e))])
  end.

(** Lines 57-68: [for i in range(total_samples)], with [remaining] values
    of [i] still to come. *)
Fixpoint collect_loop (folder_name : string) (remaining i : nat)
    (dataset_iter : list fetched) (samples : list record)
  : list record * trace :=
  match remaining with
  | 0 => (samples, [])
  | S remaining' =>
      match dataset_iter with
      | [] =>
          (samples,
           [Logged WARNING (tagged folder_name "No more samples available.")])
      | Fetched example :: dataset_iter' =>
          let '(result, evs) :=
            collect_loop folder_name remaining' (S i) dataset_iter'
                         (samples ++ [example]) in
          (result,
           (if i mod 20 =? 0
            then [Logged DEBUG
                    (tagged folder_name
                       ("Loaded " +:+ str_nat i +:+ " samples..."))]
            else []) ++ evs)
      | FetchError e :: dataset_iter' =>
          let '(result, evs) :=
            collect_loop folder_name remaining' (S i) dataset_iter' samples in
          (result,
           Logged ERROR
             (tagged folder_name
                ("Error processing sample " +:+ str_nat i +:+ ": "
                 +:+ exn_str e)) :: evs)
      end
  end.

(** Lines 54-70 *)
Definition collect (folder_name : string) (total_samples : nat)
    (dataset : list fetched) : list record * trace :=
  let '(samples, evs) := collect_loop folder_name total_samples 0 dataset [] in
  (samples,
   Logged INFO
     (tagged folder_name
        ("Starting to collect " +:+ str_nat total_samples +:+ " samples..."))
   :: evs ++
   [Logged SUCCESS
      (tagged folder_name
         ("Successfully loaded " +:+ str_nat (length samples) +:+ " samples"))]).

(** [random.sample(population, k)]: raises [ValueError] when [k] exceeds
    the population. *)
Definition random_sample (g : rng X) (population : list record) (k : nat)
  : outcome (list record) * rng X :=
  if k <=? length population then
    let '(idxs, g') := sample_indices X g (length population) k in
    (Returned (map (fun i => nth i population []) idxs), g')
  else
    (Raised (ValueError "Sample larger than population or is negative"), g).

(** Lines 77-78 *)
Definition select (g : rng X) (samples : list record) (sample_size : nat)
  : outcome (list record) * rng X :=
  let sample_size := min sample_size (length samples) in
  random_sample g samples sample_size.

(** Lines 112-118 *)
Inductive opened : Type :=
| Opened (img : image X)
| Unsupported
| OpenRaised (e : exn).

Definition open_image (image_data : value) : opened :=
  match image_data with
  | VDict d =>
      if dict_has d "bytes" then
        match dict_get d "bytes" with
        | Some b =>
            match image_open X b with
            | inr img => Opened img
            | inl e => OpenRaised e
            end
        | None => OpenRaised (OtherException "'bytes'")
        end
      else Unsupported
  | VBytes _ =>
      match image_open X image_data with
      | inr img => Opened img
      | inl e => OpenRaised e
      end
  | _ => Unsupported
  end.

(** Line 138: [[f"[{idx}] {item}" for idx, item in enumerate(text_data)]],
    counting from [idx]. *)
Fixpoint caption_lines (idx : nat) (text_data : list value) : list string :=
  match text_data with
  | [] => []
  | item :: rest =>
      ("[" +:+ str_nat idx +:+ "] " +:+ py_str item)
      :: caption_lines (S idx) rest
  end.

(** Lines 135-145 *)
Definition caption_of (text : option (string * value)) : string :=
  match text with
  | Some (_, text_data) =>
      match text_data with
      | VList items => join newline (caption_lines 0 items)
      | VStr s => s
      | _ => py_str text_data
      end
  | None => "No caption"
  end.

Definition image_path (sample_dir : string) (i : nat) : string :=
  path_join sample_dir ("image_" +:+ str_nat (i + 1) +:+ ".jpg").

Definition caption_path (sample_dir : string) (i : nat) : string :=
  path_join sample_dir ("caption_" +:+ str_nat (i + 1) +:+ ".txt").

(** The handler of line 159. *)
Definition sample_error (folder_name : string) (i : nat) (e : exn) : event X :=
  Logged ERROR
    (tagged folder_name
       ("Error processing sample " +:+ str_nat (i + 1) +:+ ": " +:+ exn_str e)).

(** Lines 84-161, the body of the saving loop for the example at
    position [i] of the selection: whether [saved_count] is incremented,
    and the effects. *)
Definition persist (folder_name sample_dir : string) (i : nat) (example : record)
  : bool * trace :=
  match find_image_field example with
  | None =>
      (false,
       [Logged WARNING
          (tagged folder_name
             ("Cannot find image field in sample " +:+ str_nat (i + 1) +:+ "."))])
  | Some (_, image_data) =>
      match open_image image_data with
      | Unsupported =>
          (false,
           [Logged WARNING
              (tagged folder_name
                 ("Unsupported image format: " +:+ type_str image_data))])
      | OpenRaised e => (false, [sample_error folder_name i e])
      | Opened img =>
          let caption := caption_of (find_text_field example) in
          match image_save X img (image_path sample_dir i) with
          | Some e => (false, [sample_error folder_name i e])
          | None =>
              match write_text X (caption_path sample_dir i) caption with
              | OpenFails e =>
                  (false,
                   [ImageSaved (image_path sample_dir i) img;
                    sample_error folder_name i e])
              | WriteFails written e =>
                  (false,
                   [ImageSaved (image_path sample_dir i) img;
                    TextWritten (caption_path sample_dir i) written;
                    sample_error folder_name i e])
              | WriteOk =>
                  (true,
                   [ImageSaved (image_path sample_dir i) img;
                    TextWritten (caption_path sample_dir i) caption;
                    Logged INFO
                      (tagged folder_name
                         ("Sample " +:+ str_nat (i + 1) +:+ " saved successfully"));
                    Logged DEBUG
                      (tagged folder_name
                         ("Paths: " +:+ image_path sample_dir i +:+ ", "
                          +:+ caption_path sample_dir i))])
              end
          end
      end
  end.

(** Lines 82-161: [for i, example in enumerate(selected_samples)], from
    position [i]. *)
Fixpoint save_loop (folder_name sample_dir : string) (i : nat)
    (selected_samples : list record) (saved_count : nat) : nat * trace :=
  match selected_samples with
  | [] => (saved_count, [])
  | example :: rest =>
      let '(saved, evs) := persist folder_name sample_dir i example in
      let '(result, evs') :=
        save_loop folder_name sample_dir (S i) rest
                  (if saved then S saved_count else saved_count) in
      (result, evs ++ evs')
  end.

(** *** The same lines when [dataset] is a dict of splits

    Every [example] is then a [str], the name of a split. *)

(** Lines 57-68 over the keys of the dict: [next] returns a key or raises
    [StopIteration]. *)
Fixpoint collect_names_loop (folder_name : string) (remaining i : nat)
    (names_iter : list string) (samples : list string)
  : list string * trace :=
  match remaining with
  | 0 => (samples, [])
  | S remaining' =>
      match names_iter with
      | [] =>
          (samples,
           [Logged WARNING (tagged folder_name "No more samples available.")])
      | example :: names_iter' =>
          let '(result, evs) :=
            collect_names_loop folder_name remaining' (S i) names_iter'
                               (samples ++ [example]) in
          (result,
           (if i mod 20 =? 0
            then [Logged DEBUG
                    (tagged folder_name
                       ("Loaded " +:+ str_nat i +:+ " samples..."))]
            else []) ++ evs)
      end
  end.

(** Lines 54-70 *)
Definition collect_names (folder_name : string) (total_samples : nat)
    (names : list string) : list string * trace :=
  let '(samples, evs) := collect_names_loop folder_name total_samples 0 names [] in
  (samples,
   Logged INFO
     (tagged folder_name
        ("Starting to collect " +:+ str_nat total_samples +:+ " samples..."))
   :: evs ++
   [Logged SUCCESS
      (tagged folder_name
         ("Successfully loaded " +:+ str_nat (length samples) +:+ " samples"))]).

(** Lines 77-78 *)
Definition select_names (g : rng X) (samples : list string) (sample_size : nat)
  : outcome (list string) * rng X :=
  let sample_size := min sample_size (length samples) in
  if sample_size <=? length samples then
    let '(idxs, g') := sample_indices X g (length samples) sample_size in
    (Returned (map (fun i => nth i samples "") idxs), g')
  else
    (Raised (ValueError "Sample larger than population or is negative"), g).

(** Lines 93-97 on a [str]: [field in example] tests for a substring. *)
Fixpoint first_occurring (fields : list string) (example : string)
  : option string :=
  match fields with
  | [] => None
  | field :: fields' =>
      if is_substring field example then Some field
      else first_occurring fields' example
  end.

(** Lines 84-161 for a [str]: [example[field]] raises [TypeError] when a
    candidate name occurs in the string, and otherwise [example.items()]
    raises [AttributeError]; the handler of line 159 logs it (the messages
    are those of Python 3.11). *)
Definition persist_name (folder_name : string) (i : nat) (example : string)
  : bool * trace :=
  match first_occurring possible_image_fields example with
  | Some _ =>
      (false,
       [sample_error folder_name i
          (OtherException "string indices must be integers, not 'str'")])
  | None =>
      (false,
       [sample_error folder_name i
          (OtherException "'str' object has no attribute 'items'")])
  end.

(** Lines 82-161 *)
Fixpoint save_names_loop (folder_name : string) (i : nat)
    (selected_samples : list string) (saved_count : nat) : nat * trace :=
  match selected_samples with
  | [] => (saved_count, [])
  | example :: rest =>
      let '(saved, evs) := persist_name folder_name i example in
      let '(result, evs') :=
        save_names_loop folder_name (S i) rest
                        (if saved then S saved_count else saved_count) in
      (result, evs ++ evs')
  end.

(** Lines 53-164 *)
Definition save_split_names (folder_name sample_dir : string)
    (splits : list (string * list fetched))
    (sample_size total_samples : nat) (g : rng X)
  : outcome nat * trace * rng X :=
  let '(samples, evs2) :=
    collect_names folder_name total_samples (map fst splits) in
  if length samples =? 0 then
    (Returned 0,
     evs2 ++ [Logged ERROR (tagged folder_name "No samples available.")],
     g)
  else
    match select_names g samples sample_size with
    | (Raised e, g') => (Raised e, evs2, g')
    | (Returned selected_samples, g') =>
        let sample_size := min sample_size (length samples) in
        let '(saved_count, evs3) :=
          save_names_loop folder_name 0 selected_samples 0 in
        (Returned saved_count,
         evs2 ++
         [Logged INFO
            (tagged folder_name
               ("Randomly selected " +:+ str_nat sample_size +:+ " out of "
                +:+ str_nat (length samples) +:+ " samples"))]
         ++ evs3 ++
         [Logged SUCCESS
            (tagged folder_name
               ("Saved " +:+ str_nat saved_count
                +:+ " images and captions to '" +:+ sample_dir
                +:+ "' folder."))],
         g')
    end.

(** Lines 18-164.  [sample_size] and [total_samples] are the counts of
    the docstring (number of images to save, number of samples to load).
    [Raised] is an exception that leaves the function: only [os.makedirs]
    and [random.sample] are called outside every [try]. *)
Definition save_dataset_examples (dataset_name : string)
    (sample_size total_samples : nat) (g : rng X)
  : outcome nat * trace * rng X :=
  let folder_name := folder_of dataset_name in
  let sample_dir := "samples_" +:+ folder_name in
  match makedirs X sample_dir with
  | Some e => (Raised e, [], g)
  | None =>
      let evs0 :=
        [DirMade sample_dir;
         Logged INFO
           (tagged folder_name
              ("Created folder to save samples: " +:+ sample_dir));
         Logged INFO (tagged folder_name "Loading dataset in streaming mode...")] in
      match open_dataset folder_name dataset_name with
      | (None, evs1) => (Returned 0, evs0 ++ evs1, g)
      | (Some (SplitDict splits), evs1) =>
          let '(result, evs, g') :=
            save_split_names folder_name sample_dir splits
                             sample_size total_samples g in
          (result, evs0 ++ evs1 ++ evs, g')
      | (Some (Stream dataset), evs1) =>
          let '(samples, evs2) := collect folder_name total_samples dataset in
          if length samples =? 0 then
            (Returned 0,
             evs0 ++ evs1 ++ evs2 ++
             [Logged ERROR (tagged folder_name "No samples available.")],
             g)
          else
            match select g samples sample_size with
            | (Raised e, g') => (Raised e, evs0 ++ evs1 ++ evs2, g')
            | (Returned selected_samples, g') =>
                let sample_size := min sample_size (length samples) in
                let '(saved_count, evs3) :=
                  save_loop folder_name sample_dir 0 selected_samples 0 in
                (Returned saved_count,
                 evs0 ++ evs1 ++ evs2 ++
                 [Logged INFO
                    (tagged folder_name
                       ("Randomly selected " +:+ str_nat sample_size +:+ " out of "
                        +:+ str_nat (length samples) +:+ " samples"))]
                 ++ evs3 ++
                 [Logged SUCCESS
                    (tagged folder_name
                       ("Saved " +:+ str_nat saved_count
                        +:+ " images and captions to '" +:+ sample_dir
                        +:+ "' folder."))],
                 g')
            end
      end
  end.

(** Lines 178-186 *)
Definition datasets : list string :=
  ["dandelin/redcaps"; "dandelin/cc12m"; "dandelin/wit"; "dandelin/vg";
   "dandelin/sbu"; "dandelin/cocokt"; "dandelin/cc3m"].

(** Lines 191-198: [for dataset_name in datasets], with the default
    [sample_size=10] and [total_samples=100]. *)
Fixpoint process_loop (names : list string) (total_success : nat) (g : rng X)
  : outcome nat * trace * rng X :=
  match names with
  | [] => (Returned total_success, [], g)
  | dataset_name :: rest =>
      let start :=
        Logged INFO
          ("Starting to process dataset '" +:+ dataset_name +:+ "'...") in
      match save_dataset_examples dataset_name 10 100 g with
      | (Raised e, evs, g') => (Raised e, start :: evs, g')
      | (Returned saved_count, evs, g') =>
          let '(result, evs', g'') :=
            process_loop rest
              (if 0 <? saved_count then S total_success else total_success) g' in
          (result,
           start :: evs ++
           (if 0 <? saved_count
            then Logged SUCCESS
                   ("Completed processing dataset '" +:+ dataset_name +:+ "'")
            else Logged ERROR
                   ("Failed to process dataset '" +:+ dataset_name +:+ "'"))
           :: evs',
           g'')
      end
  end.

(** Lines 166-200.  [HF_API_KEY] is the credential of [config.py], the
    empty string when it is not set. *)
Definition process_all_datasets (HF_API_KEY : string) (g : rng X)
  : outcome unit * trace * rng X :=
  if String.eqb HF_API_KEY "" then
    (Returned tt,
     [Logged ERROR "Hugging Face API key not set. Please check config.py file."],
     g)
  else
    match hub_login X HF_API_KEY with
    | Some e => (Raised e, [], g)
    | None =>
        match process_loop datasets 0 g with
        | (Raised e, evs, g') => (Raised e, LoggedIn HF_API_KEY :: evs, g')
        | (Returned total_success, evs, g') =>
            (Returned tt,
             LoggedIn HF_API_KEY :: evs ++
             [Logged SUCCESS
                ("Successfully processed " +:+ str_nat total_success
                 +:+ " out of " +:+ str_nat (length datasets) +:+ " datasets")],
             g')
        end
    end.

End Script.

Arguments Opened {X} img.
Arguments Unsupported {X}.
Arguments OpenRaised {X} e.

(** ** The specification's vocabulary *)

(** A field name is present in a record. *)
Definition present (example : record) (field : string) : Prop :=
  is_Some (dict_get example field).

(** An entry qualifies for the fallback scan: its value is raw bytes or a
    nested container, and its key is none of [text], [caption], [label]. *)
Definition image_like (entry : string * value) : Prop :=
  ((exists b, entry.2 = VBytes b) \/ (exists d, entry.2 = VDict d)) /\
  entry.1 <> "text" /\ entry.1 <> "caption" /\ entry.1 <> "label".

(** A caption line as the specification renders it. *)
Definition rendered (X : External) (position : nat) (element : value) : string :=
  "[" +:+ str_nat position +:+ "] " +:+ py_str X element.

(** The examples among what the iterator delivered. *)
Fixpoint examples_of (delivered : list fetched) : list record :=
  match delivered with
  | [] => []
  | Fetched example :: rest => example :: examples_of rest
  | FetchError _ :: rest => examples_of rest
  end.

(** The log entry of line 64. *)
Definition exhausted {X : External} (folder_name : string) : event X :=
  Logged WARNING (tagged folder_name "No more samples available.").

(** The file an effect writes, if any. *)
Definition written_path {X : External} (ev : event X) : option string :=
  match ev with
  | ImageSaved path _ | TextWritten path _ => Some path
  | _ => None
  end.

(** In the trace [evs], every caption written is the caption of a
    position [n] of the selection with [lo <= n < hi], and the image of the
    same position was saved earlier in the trace. *)
Definition caption_follows_image {X : External} (sample_dir : string)
    (lo hi : nat) (evs : list (event X)) : Prop :=
  forall k path content,
    evs !! k = Some (TextWritten path content) ->
    exists n img j,
      (lo <= n /\ n < hi) /\ path = caption_path sample_dir n /\
      j < k /\ evs !! j = Some (ImageSaved (image_path sample_dir n) img).

(** The directory of line 31. *)
Definition sample_dir_of (dataset_name : string) : string :=
  "samples_" +:+ folder_of dataset_name.

(** The character [c] occurs in [s]. *)
Fixpoint contains (c : ascii) (s : string) : bool :=
  match s with
  | EmptyString => false
  | String c' s' => if Ascii.eqb c' c then true else contains c s'
  end.

(** The number of deliveries that raised. *)
Fixpoint fetch_errors (delivered : list fetched) : nat :=
  match delivered with
  | [] => 0
  | Fetched _ :: rest => fetch_errors rest
  | FetchError _ :: rest => S (fetch_errors rest)
  end.

(** The number of effects of a kind in a trace. *)
Definition count_events {X : External} (kind : event X -> bool)
    (evs : list (event X)) : nat :=
  length (List.filter kind evs).

(** A log entry that reports a skipped record or a failure. *)
Definition is_problem_log {X : External} (ev : event X) : bool :=
  match ev with
  | Logged WARNING _ | Logged ERROR _ => true
  | _ => false
  end.

Definition is_image_saved {X : External} (ev : event X) : bool :=
  match ev with ImageSaved _ _ => true | _ => false end.

Definition is_text_written {X : External} (ev : event X) : bool :=
  match ev with TextWritten _ _ => true | _ => false end.

(** The directories created, in the order of their creation. *)
Fixpoint dirs_made {X : External} (evs : list (event X)) : list string :=
  match evs with
  | [] => []
  | DirMade path :: evs' => path :: dirs_made evs'
  | _ :: evs' => dirs_made evs'
  end.

(** An effect that is nothing but a log entry of the dataset. *)
Definition is_tagged_log {X : External} (folder_name : string) (ev : event X)
  : Prop :=
  match ev with
  | Logged _ msg => exists text, msg = tagged folder_name text
  | _ => False
  end.

(** A log entry carries the folder name of its dataset in front. *)
Definition is_tagged {X : External} (folder_name : string) (ev : event X) : Prop :=
  match ev with
  | Logged _ msg => exists text, msg = tagged folder_name text
  | _ => True
  end.

(** ** A concrete outside world, for the examples *)

Module Fixture.

Definition jpeg : list Byte.byte := [Byte.xff; Byte.xd8; Byte.xff].

Definition repr (v : value) : string :=
  match v with
  | VNone => "None"
  | VInt z => NilEmpty.string_of_int (Z.to_int z)
  | VObj _ r => r
  | _ => "<" +:+ type_name v +:+ ">"
  end.

(** Bytes decode when they start like a JPEG file. *)
Definition decode (v : value) : exn + list Byte.byte :=
  match v with
  | VBytes (Byte.xff :: Byte.xd8 :: rest) => inr (Byte.xff :: Byte.xd8 :: rest)
  | VBytes _ | VNone => inl (OtherException "cannot identify image file")
  | _ => inl (OtherException "a bytes-like object is required")
  end.

(** The last [k] of [n] positions, highest first. *)
Definition pick (g n k : nat) : list nat * nat :=
  (reverse (seq (n - k) k), S g).

Definition cat : record := [("image", VBytes jpeg); ("caption", VStr "a cat")].

Definition two_captions : record :=
  [("image", VBytes jpeg); ("caption", VList [VStr "a"; VStr "b"])].

Definition image_only : record := [("image", VBytes jpeg)].

Definition no_image : record := [("id", VInt 2)].

(** An image already decoded by the dataset library, next to raw bytes. *)
Definition decoded : record :=
  [("raw", VBytes jpeg); ("image", VObj "JpegImageFile" "<PIL image>")].

(** Two candidate names, the later one of the list first in the record. *)
Definition two_candidates : record :=
  [("id", VInt 7); ("photo", VBytes jpeg); ("img", VStr "u")].

(** No candidate name; bytes under an excluded key, then a container. *)
Definition no_candidate : record :=
  [("caption", VBytes jpeg); ("n", VInt 1); ("payload", VDict []);
   ("raw", VBytes jpeg)].

(** A hub with one dataset of three examples, one dataset without a
    [train] split, and one that cannot be loaded. *)
Definition hub (name split : string) : exn + list fetched :=
  if String.eqb name "dandelin/sbu" then
    inr [Fetched cat; Fetched no_image; Fetched cat]
  else if String.eqb name "dandelin/wit" then
    inl (ValueError "Bad split: train")
  else if String.eqb name "dandelin/vg" then
    inl (ValueError "Bad split: train")
  else inl (OtherException "Connection error").

(** The same hub asked without a split: the dict of the splits. *)
Definition hub_dict (name : string) : exn + list (string * list fetched) :=
  if String.eqb name "dandelin/sbu" then
    inr [("train", [Fetched cat; Fetched no_image; Fetched cat])]
  else if String.eqb name "dandelin/wit" then
    inr [("validation", [Fetched cat]); ("test", [Fetched cat])]
  else if String.eqb name "dandelin/vg" then
    inl (ValueError "Bad split: train")
  else inl (OtherException "Connection error").

(** A disk on which nothing can be written below [samples_full]. *)
Definition write (path content : string) : write_outcome :=
  if String.prefix "samples_full/" path
  then OpenFails (OtherException "No space left on device")
  else WriteOk.

(** No directory can be created for the third dataset of the list. *)
Definition locked (path : string) : option exn :=
  if String.eqb path "samples_wit"
  then Some (OtherException "Permission denied")
  else None.

Definition world : External :=
  {| image := list Byte.byte;
     rng := nat;
     py_repr := repr;
     hub_login := fun _ => None;
     makedirs := fun _ => None;
     load_dataset := hub;
     load_dataset_dict := hub_dict;
     sample_indices := pick;
     image_open := decode;
     image_save := fun _ _ => None;
     write_text := write |}.

Definition locked_world : External :=
  {| image := list Byte.byte;
     rng := nat;
     py_repr := repr;
     hub_login := fun _ => None;
     makedirs := locked;
     load_dataset := hub;
     load_dataset_dict := hub_dict;
     sample_indices := pick;
     image_open := decode;
     image_save := fun _ _ => None;
     write_text := write |}.

End Fixture.

(** ** Field detection *)

Lemma dict_has_get (d : list (string * value)) (field : string) :
  dict_has d field = match dict_get d field with Some _ => true | None => false end.
Proof.
  induction d as [|[k v] d IH]; simpl; [reflexivity|].
  destruct (String.eqb k field); [reflexivity | exact IH].
Qed.

Lemma absent_not_has (example : record) (field : string) :
  ~ present example field -> dict_has example field = false.
Proof.
  unfold present. rewrite dict_has_get.
  destruct (dict_get example field); [intros H; destruct H; eauto | reflexivity].
Qed.

Lemma first_present_none (fields : list string) (example : record) :
  Forall (fun f => ~ present example f) fields ->
  first_present fields example = None.
Proof.
  induction 1 as [|f fields Hf _ IH]; simpl; [reflexivity|].
  rewrite (absent_not_has _ _ Hf). exact IH.
Qed.

Lemma first_present_first (before after : list string) (field : string)
    (example : record) (v : value) :
  Forall (fun f => ~ present example f) before ->
  dict_get example field = Some v ->
  first_present (before ++ field :: after) example = Some (field, v).
Proof.
  intros Hbefore Hget.
  induction Hbefore as [|f before Hf _ IH]; simpl.
  - rewrite dict_has_get, Hget. reflexivity.
  - rewrite (absent_not_has _ _ Hf). exact IH.
Qed.

Lemma str_in_excluded (key : string) :
  str_in key excluded_keys = false <->
  key <> "text" /\ key <> "caption" /\ key <> "label".
Proof.
  unfold excluded_keys; simpl.
  destruct (String.eqb_spec key "text") as [->|H1]; [split; [discriminate | tauto]|].
  destruct (String.eqb_spec key "caption") as [->|H2]; [split; [discriminate | tauto]|].
  destruct (String.eqb_spec key "label") as [->|H3]; [split; [discriminate | tauto]|].
  tauto.
Qed.

(** The test of line 102 decides [image_like]. *)
Lemma scan_test_spec (key : string) (v : value) :
  (is_bytes v || is_dict v) && negb (str_in key excluded_keys) = true <->
  image_like (key, v).
Proof.
  rewrite andb_true_iff, negb_true_iff, str_in_excluded, orb_true_iff.
  unfold image_like; simpl.
  split; intros [Hv Hk]; split; try exact Hk.
  - destruct v; simpl in Hv; destruct Hv as [Hv|Hv]; try discriminate; eauto.
  - destruct Hv as [[b ->]|[d ->]]; simpl; auto.
Qed.

Lemma scan_items_none (items : list (string * value)) :
  Forall (fun e => ~ image_like e) items -> scan_items items = None.
Proof.
  induction 1 as [|[k v] items He _ IH]; cbn [scan_items]; [reflexivity|].
  destruct ((is_bytes v || is_dict v) && negb (str_in k excluded_keys)) eqn:E.
  - apply scan_test_spec in E. contradiction.
  - exact IH.
Qed.

Lemma scan_items_first (pre post : list (string * value)) (entry : string * value) :
  Forall (fun e => ~ image_like e) pre -> image_like entry ->
  scan_items (pre ++ entry :: post) = Some entry.
Proof.
  intros Hpre Hentry.
  induction Hpre as [|[k v] pre He _ IH]; cbn [scan_items app].
  - destruct entry as [k v]. apply scan_test_spec in Hentry.
    rewrite Hentry. reflexivity.
  - destruct ((is_bytes v || is_dict v) && negb (str_in k excluded_keys)) eqn:E.
    + apply scan_test_spec in E. contradiction.
    + exact IH.
Qed.

(** C3. The image field is found by ordered, first-match-wins detection:
    the names [image], [img], [images], [image_data], [photo] are tried in
    that order and the first one present in the record is chosen with its
    value; only when none of them is present is the record scanned, in the
    order of its entries, for the first entry whose value is raw bytes or
    a nested container and whose key is none of [text], [caption],
    [label]; when no entry qualifies no image field is found. *)
Theorem image_field_first_match_wins (example : record) :
  possible_image_fields = ["image"; "img"; "images"; "image_data"; "photo"] /\
  (forall before field after v,
      possible_image_fields = before ++ field :: after ->
      Forall (fun f => ~ present example f) before ->
      dict_get example field = Some v ->
      find_image_field example = Some (field, v)) /\
  (Forall (fun f => ~ present example f) possible_image_fields ->
   (forall pre entry post,
       example = pre ++ entry :: post ->
       Forall (fun e => ~ image_like e) pre ->
       image_like entry ->
       find_image_field example = Some entry) /\
   (Forall (fun e => ~ image_like e) example ->
    find_image_field example = None)).
Proof.
  split; [reflexivity|]. split.
  - intros before field after v Hsplit Hbefore Hget.
    unfold find_image_field. rewrite Hsplit.
    rewrite (first_present_first _ _ _ _ _ Hbefore Hget). reflexivity.
  - intros Habsent. unfold find_image_field.
    rewrite (first_present_none _ _ Habsent). split.
    + intros pre entry post -> Hpre Hentry. apply scan_items_first; assumption.
    + apply scan_items_none.
Qed.

Lemma image_field_first_match_wins_witness :
  find_image_field Fixture.two_candidates = Some ("img", VStr "u") /\
  find_image_field Fixture.no_candidate = Some ("payload", VDict []).
Proof.
  split.
  - apply (proj1 (proj2 (image_field_first_match_wins Fixture.two_candidates))
             ["image"] "img" ["images"; "image_data"; "photo"]).
    + reflexivity.
    + repeat constructor. intros [v Hv]. discriminate Hv.
    + reflexivity.
  - apply (proj1 (proj2 (proj2 (image_field_first_match_wins Fixture.no_candidate))
                    ltac:(repeat constructor; intros [v Hv]; discriminate Hv))
             [("caption", VBytes Fixture.jpeg); ("n", VInt 1)]
             ("payload", VDict [])
             [("raw", VBytes Fixture.jpeg)]).
    + reflexivity.
    + repeat constructor.
      * intros (_ & _ & Hkey & _). apply Hkey. reflexivity.
      * intros ([[b Hb] | [d Hd]] & _); discriminate.
    + split; [right; eexists; reflexivity | repeat split; discriminate].
Defined.

(** ** Persisting one example *)

Section Persist.

Context (X : External).
Implicit Types (example : record) (fs : gmap string (file X)).

Lemma find_image_field_none example :
  Forall (fun f => ~ present example f) possible_image_fields ->
  Forall (fun e => ~ image_like e) example ->
  find_image_field example = None.
Proof.
  intros Hfields Hitems. unfold find_image_field.
  rewrite (first_present_none _ _ Hfields). apply scan_items_none, Hitems.
Qed.

Lemma length_app_str (a b : string) :
  String.length (a +:+ b) = String.length a + String.length b.
Proof. induction a as [|c a IH]; simpl; [reflexivity | rewrite IH; reflexivity]. Qed.

Lemma app_str_inj_r (s a b : string) : a +:+ s = b +:+ s -> a = b.
Proof.
  revert b. induction a as [|c a IH]; intros [|d b] H.
  - reflexivity.
  - apply (f_equal String.length) in H.
    rewrite !length_app_str in H. simpl in H. lia.
  - apply (f_equal String.length) in H.
    rewrite !length_app_str in H. simpl in H. lia.
  - injection H as -> H. f_equal. apply IH, H.
Qed.

Lemma path_join_inj (dir a b : string) : path_join dir a = path_join dir b -> a = b.
Proof.
  unfold path_join. intros H. apply (inj (String.app dir)) in H.
  apply (inj (String.app "/")) in H. exact H.
Qed.

(** An image path is never a caption path. *)
Lemma image_path_not_caption (sample_dir : string) (i j : nat) :
  image_path sample_dir i <> caption_path sample_dir j.
Proof.
  unfold image_path, caption_path. intros H.
  apply path_join_inj in H. discriminate H.
Qed.

Lemma str_nat_inj (n m : nat) : str_nat n = str_nat m -> n = m.
Proof.
  unfold str_nat. intros H.
  assert (Hu : Nat.to_uint n = Nat.to_uint m).
  { apply (f_equal NilEmpty.uint_of_string) in H.
    rewrite !NilEmpty.usu in H. congruence. }
  apply (f_equal Nat.of_uint) in Hu.
  rewrite !DecimalNat.Unsigned.of_to in Hu. exact Hu.
Qed.

Lemma caption_path_inj (sample_dir : string) (i j : nat) :
  caption_path sample_dir i = caption_path sample_dir j -> i = j.
Proof.
  unfold caption_path. intros H. apply path_join_inj in H.
  apply (inj (String.app "caption_")) in H.
  apply app_str_inj_r, str_nat_inj in H. lia.
Qed.

Lemma image_path_inj (sample_dir : string) (i j : nat) :
  image_path sample_dir i = image_path sample_dir j -> i = j.
Proof.
  unfold image_path. intros H. apply path_join_inj in H.
  apply (inj (String.app "image_")) in H.
  apply app_str_inj_r, str_nat_inj in H. lia.
Qed.

(** The trace of an example whose image is found, opens and is saved,
    and whose caption is written. *)
Lemma persist_saved folder_name sample_dir i example fld data img :
  find_image_field example = Some (fld, data) ->
  open_image X data = Opened img ->
  image_save X img (image_path sample_dir i) = None ->
  write_text X (caption_path sample_dir i)
             (caption_of X (find_text_field example)) = WriteOk ->
  exists info debug,
    persist X folder_name sample_dir i example =
    (true,
     [ImageSaved (image_path sample_dir i) img;
      TextWritten (caption_path sample_dir i)
                  (caption_of X (find_text_field example));
      Logged INFO info; Logged DEBUG debug]).
Proof.
  intros Hfind Hopen Hsave Hwrite. unfold persist.
  rewrite Hfind, Hopen, Hsave, Hwrite. eauto.
Qed.

Lemma files_after_saved fs ip cp img caption e1 e2 :
  files_after fs
    [ImageSaved ip img; TextWritten cp caption; Logged INFO e1; Logged DEBUG e2]
  !! cp = Some (TextFile caption).
Proof. unfold files_after; simpl. apply lookup_insert_eq. Qed.

(** C4. A record in which none of the candidate image names is present
    and no entry qualifies for the fallback scan is not saved: [persist]
    reports failure, its only effect is the warning of line 108, and
    neither an image file nor a caption file is written. *)
Theorem persist_without_image_field folder_name sample_dir i example fs :
  Forall (fun f => ~ present example f) possible_image_fields ->
  Forall (fun e => ~ image_like e) example ->
  (persist X folder_name sample_dir i example).1 = false /\
  (persist X folder_name sample_dir i example).2 =
    [Logged WARNING
       (tagged folder_name
          ("Cannot find image field in sample " +:+ str_nat (i + 1) +:+ "."))] /\
  Forall (fun ev => is_file_event ev = false)
         (persist X folder_name sample_dir i example).2 /\
  files_after fs (persist X folder_name sample_dir i example).2 = fs.
Proof.
  intros Hfields Hitems. unfold persist.
  rewrite (find_image_field_none _ Hfields Hitems); simpl.
  repeat split. repeat constructor.
Qed.

Lemma find_text_field_none example :
  Forall (fun f => ~ present example f) possible_text_fields ->
  find_text_field example = None.
Proof. apply first_present_none. Qed.

(** C5. For a record whose image is found, decodes and is saved, and in
    which none of [text], [caption], [captions], [description],
    [descriptions], [title] is present, the text handed to the caption
    file is the literal [No caption]: when that write succeeds the record
    is saved and the file [caption_<i+1>.txt] holds exactly
    [No caption]. *)
Theorem missing_text_gives_no_caption
    folder_name sample_dir i example fld data img fs :
  find_image_field example = Some (fld, data) ->
  open_image X data = Opened img ->
  image_save X img (image_path sample_dir i) = None ->
  Forall (fun f => ~ present example f) possible_text_fields ->
  write_text X (caption_path sample_dir i) "No caption" = WriteOk ->
  (persist X folder_name sample_dir i example).1 = true /\
  (forall path content,
      In (TextWritten path content)
         (persist X folder_name sample_dir i example).2 ->
      path = caption_path sample_dir i /\ content = "No caption") /\
  files_after fs (persist X folder_name sample_dir i example).2
    !! caption_path sample_dir i = Some (TextFile "No caption").
Proof.
  intros Hfind Hopen Hsave Htext Hwrite.
  assert (Hcap : caption_of X (find_text_field example) = "No caption")
    by (rewrite (find_text_field_none _ Htext); reflexivity).
  rewrite <- Hcap in Hwrite.
  destruct (persist_saved folder_name _ _ _ _ _ _ Hfind Hopen Hsave Hwrite)
    as (info & debug & ->).
  rewrite Hcap. simpl. split; [reflexivity|]. split.
  - intros path content [H|[H|[H|[H|[]]]]]; inversion H; auto.
  - apply lookup_insert_eq.
Qed.

(** ** Caption rendering *)

(** The comprehension of line 138 numbers the elements from [idx] on, in
    their order. *)
Lemma caption_lines_imap (idx : nat) (items : list value) :
  caption_lines X idx items = imap (fun j => rendered X (idx + j)) items.
Proof.
  revert idx. induction items as [|item items IH]; intros idx; simpl.
  - reflexivity.
  - rewrite Nat.add_0_r. f_equal. rewrite IH.
    apply imap_ext. intros j x _. simpl. f_equal. lia.
Qed.

Lemma caption_of_list fld (items : list value) :
  caption_of X (Some (fld, VList items)) = join newline (imap (rendered X) items).
Proof. simpl. rewrite caption_lines_imap. reflexivity. Qed.

(** C2. The caption written for a record (whose image is found, decodes
    and is saved, the write of the caption succeeding) is the detected text
    value normalised: a list is rendered element by element as
    [[<position>] <element>], positions counted from 0 in the original
    order, the lines joined by newlines, so that [caption = ["a", "b"]]
    gives the file content [[0] a\n[1] b]; a string is written as it is;
    any other value is written as its string representation. *)
Theorem caption_file_content folder_name sample_dir i example fld data img fs :
  find_image_field example = Some (fld, data) ->
  open_image X data = Opened img ->
  image_save X img (image_path sample_dir i) = None ->
  write_text X (caption_path sample_dir i)
             (caption_of X (find_text_field example)) = WriteOk ->
  exists caption,
    files_after fs (persist X folder_name sample_dir i example).2
      !! caption_path sample_dir i = Some (TextFile caption) /\
    (forall field items,
        find_text_field example = Some (field, VList items) ->
        caption = join newline (imap (rendered X) items)) /\
    (~ present example "text" ->
     dict_get example "caption" = Some (VList [VStr "a"; VStr "b"]) ->
     caption = "[0] a" +:+ newline +:+ "[1] b") /\
    (forall field s,
        find_text_field example = Some (field, VStr s) -> caption = s) /\
    (forall field v,
        find_text_field example = Some (field, v) ->
        is_list_value v = false -> caption = py_str X v).
Proof.
  intros Hfind Hopen Hsave Hwrite.
  exists (caption_of X (find_text_field example)).
  destruct (persist_saved folder_name _ _ _ _ _ _ Hfind Hopen Hsave Hwrite)
    as (info & debug & ->).
  split; [apply files_after_saved|].
  split; [|split; [|split]].
  - intros field items ->. apply caption_of_list.
  - intros Htext Hcaption.
    unfold find_text_field.
    change possible_text_fields
      with (["text"] ++ "caption"
            :: ["captions"; "description"; "descriptions"; "title"]).
    rewrite (first_present_first ["text"] _ "caption" example _
               ltac:(repeat constructor; exact Htext) Hcaption).
    reflexivity.
  - intros field s ->. reflexivity.
  - intros field v -> Hv. destruct v; try reflexivity; discriminate Hv.
Qed.

(** ** The order of the two writes *)

Lemma files_after_app fs (evs1 evs2 : list (event X)) :
  files_after fs (evs1 ++ evs2) = files_after (files_after fs evs1) evs2.
Proof. apply fold_left_app. Qed.

(** A path no effect writes keeps its content. *)
Lemma files_after_other fs (evs : list (event X)) (path : string) :
  Forall (fun ev => written_path ev <> Some path) evs ->
  files_after fs evs !! path = fs !! path.
Proof.
  intros H. revert fs.
  induction H as [|ev evs Hev _ IH]; intros fs; [reflexivity|].
  change (files_after fs (ev :: evs)) with (files_after (apply_event fs ev) evs).
  rewrite IH.
  destruct ev; simpl in *; try reflexivity;
    apply lookup_insert_ne; congruence.
Qed.

(** A file that appears was written by some effect. *)
Lemma files_after_written fs (evs : list (event X)) (path : string) :
  fs !! path = None ->
  is_Some (files_after fs evs !! path) ->
  Exists (fun ev => written_path ev = Some path) evs.
Proof.
  revert fs. induction evs as [|ev evs IH]; intros fs Hfresh Hfile.
  - simpl in Hfile. rewrite Hfresh in Hfile. destruct Hfile as [? H]. discriminate H.
  - destruct (decide (written_path ev = Some path)) as [Heq|Hne].
    + left. exact Heq.
    + right. apply (IH (apply_event fs ev)); [|exact Hfile].
      destruct ev; simpl in *; try exact Hfresh;
        rewrite lookup_insert_ne by congruence; exact Hfresh.
Qed.

(** A path that only image saves write, and that holds an image at the
    start or is saved in the trace, holds an image at the end. *)
Lemma files_after_image fs (evs : list (event X)) (path : string) :
  Forall (fun ev => forall content, ev <> TextWritten path content) evs ->
  (exists img, fs !! path = Some (ImageFile img)) \/
  Exists (fun ev => exists img, ev = ImageSaved path img) evs ->
  exists img, files_after fs evs !! path = Some (ImageFile img).
Proof.
  intros H. revert fs.
  induction H as [|ev evs Hev _ IH]; intros fs Hstart.
  - destruct Hstart as [Hfs|Hex]; [exact Hfs | inversion Hex].
  - change (files_after fs (ev :: evs)) with (files_after (apply_event fs ev) evs).
    apply IH.
    destruct Hstart as [[img Hfs]|Hex].
    + left. destruct ev; simpl; eauto.
      * destruct (decide (path0 = path)) as [->|Hne].
        -- rewrite lookup_insert_eq. eauto.
        -- rewrite lookup_insert_ne by exact Hne. eauto.
      * rewrite lookup_insert_ne; [eauto|].
        intros ->. apply (Hev content). reflexivity.
    + inversion Hex as [? ? [img ->]|? ? Htail]; subst.
      * left. simpl. rewrite lookup_insert_eq. eauto.
      * right. exact Htail.
Qed.

(** The files [persist] writes for position [i] are the two files of that
    position, and an image save only writes the image path. *)
Lemma persist_paths folder_name sample_dir i example :
  Forall (fun ev =>
            match ev with
            | ImageSaved path _ => path = image_path sample_dir i
            | TextWritten path _ => path = caption_path sample_dir i
            | _ => True
            end)
         (persist X folder_name sample_dir i example).2.
Proof.
  unfold persist.
  destruct (find_image_field example) as [[fld data]|]; [|repeat constructor].
  destruct (open_image X data); try (repeat constructor).
  destruct (image_save X img _); [repeat constructor|].
  destruct (write_text X _ _); repeat constructor.
Qed.

Lemma persist_caption_follows_image folder_name sample_dir i example :
  caption_follows_image sample_dir i (S i)
    (persist X folder_name sample_dir i example).2.
Proof.
  unfold persist, caption_follows_image.
  destruct (find_image_field example) as [[fld data]|];
    [|intros [|[|k]] ? ? H; discriminate H].
  destruct (open_image X data);
    try (intros [|[|k]] ? ? H; discriminate H).
  destruct (image_save X img _);
    [intros [|[|k]] ? ? H; discriminate H|].
  destruct (write_text X _ _);
    intros [|[|[|[|[|k]]]]] path content H; simpl in H;
    try discriminate H; injection H as <- <-;
    exists i, img, 0; (split; [lia|]); (split; [reflexivity|]);
    (split; [lia | reflexivity]).
Qed.

Lemma caption_follows_image_app sample_dir lo mid hi (evs1 evs2 : list (event X)) :
  lo <= mid <= hi ->
  caption_follows_image sample_dir lo mid evs1 ->
  caption_follows_image sample_dir mid hi evs2 ->
  caption_follows_image sample_dir lo hi (evs1 ++ evs2).
Proof.
  intros Hle H1 H2 k path content Hk.
  apply lookup_app_Some in Hk as [Hk|[Hlen Hk]].
  - destruct (H1 _ _ _ Hk) as (n & img & j & Hn & Hpath & Hj & Hev).
    exists n, img, j. repeat split; try lia; try assumption.
    apply lookup_app_l_Some, Hev.
  - destruct (H2 _ _ _ Hk) as (n & img & j & Hn & Hpath & Hj & Hev).
    exists n, img, (length evs1 + j). repeat split; try lia; try assumption.
    rewrite lookup_app_r by lia.
    replace (length evs1 + j - length evs1) with j by lia. exact Hev.
Qed.

(** Unfolding of one turn of the saving loop. *)
Lemma save_loop_cons folder_name sample_dir i example rest saved_count :
  save_loop X folder_name sample_dir i (example :: rest) saved_count =
  let r := persist X folder_name sample_dir i example in
  let r' := save_loop X folder_name sample_dir (S i) rest
                      (if r.1 then S saved_count else saved_count) in
  (r'.1, r.2 ++ r'.2).
Proof.
  simpl. destruct (persist X folder_name sample_dir i example) as [saved evs].
  destruct (save_loop X folder_name sample_dir (S i) rest _). reflexivity.
Qed.

Lemma save_loop_caption_follows_image folder_name sample_dir i selected saved_count :
  caption_follows_image sample_dir i (i + length selected)
    (save_loop X folder_name sample_dir i selected saved_count).2.
Proof.
  revert i saved_count.
  induction selected as [|example rest IH]; intros i saved_count.
  - intros k ? ? H. destruct k; discriminate H.
  - rewrite save_loop_cons. cbn [snd length].
    apply (caption_follows_image_app _ i (S i)); [lia| |].
    + apply persist_caption_follows_image.
    + replace (i + S (length rest)) with (S i + length rest) by lia. apply IH.
Qed.

Lemma save_loop_paths folder_name sample_dir i selected saved_count :
  Forall (fun ev =>
            match ev with
            | ImageSaved path _ => exists n, path = image_path sample_dir n
            | TextWritten path _ => exists n, path = caption_path sample_dir n
            | _ => True
            end)
         (save_loop X folder_name sample_dir i selected saved_count).2.
Proof.
  revert i saved_count.
  induction selected as [|example rest IH]; intros i saved_count.
  - constructor.
  - rewrite save_loop_cons. cbn [snd]. apply Forall_app. split; [|apply IH].
    eapply Forall_impl; [apply persist_paths|].
    intros [] H; eauto.
Qed.

(** The files of position [i] are not written at later positions. *)
Lemma save_loop_later_paths folder_name sample_dir i j selected saved_count :
  i < j ->
  Forall (fun ev => written_path ev <> Some (image_path sample_dir i))
         (save_loop X folder_name sample_dir j selected saved_count).2.
Proof.
  intros Hlt. revert j saved_count Hlt.
  induction selected as [|example rest IH]; intros j saved_count Hlt.
  - constructor.
  - rewrite save_loop_cons. cbn [snd]. apply Forall_app.
    split; [|apply IH; lia].
    eapply Forall_impl; [apply persist_paths|].
    intros [] H; simpl; try discriminate; subst; intros [= Heq].
    + apply image_path_inj in Heq. lia.
    + symmetry in Heq. exact (image_path_not_caption _ _ _ Heq).
Qed.

(** C9. Persisting one record is not atomic.  When the image of a record
    is found, decodes and is saved, the image file is the first effect of
    [persist] and every caption write comes after it; if the caption write
    then fails (at [open] or while writing), the record is not counted as
    saved and an error is logged, but nothing removes the image: the file
    [image_<i+1>.jpg] is in the output directory after [persist], and
    still there when the rest of the selection has been processed. *)
Theorem persist_not_atomic
    folder_name sample_dir i example rest fld data img fs saved_count :
  find_image_field example = Some (fld, data) ->
  open_image X data = Opened img ->
  image_save X img (image_path sample_dir i) = None ->
  (persist X folder_name sample_dir i example).2 !! 0
    = Some (ImageSaved (image_path sample_dir i) img) /\
  (forall k path content,
      (persist X folder_name sample_dir i example).2 !! k
        = Some (TextWritten path content) -> 0 < k) /\
  (write_text X (caption_path sample_dir i)
              (caption_of X (find_text_field example)) <> WriteOk ->
   (persist X folder_name sample_dir i example).1 = false /\
   Exists (fun ev => is_error_log ev = true)
          (persist X folder_name sample_dir i example).2 /\
   files_after fs (persist X folder_name sample_dir i example).2
     !! image_path sample_dir i = Some (ImageFile img) /\
   (save_loop X folder_name sample_dir i (example :: rest) saved_count).1
     = (save_loop X folder_name sample_dir (S i) rest saved_count).1 /\
   files_after fs
     (save_loop X folder_name sample_dir i (example :: rest) saved_count).2
     !! image_path sample_dir i = Some (ImageFile img)).
Proof.
  intros Hfind Hopen Hsave.
  assert (Hfirst :
            (persist X folder_name sample_dir i example).2 !! 0
            = Some (ImageSaved (image_path sample_dir i) img)).
  { unfold persist. rewrite Hfind, Hopen, Hsave.
    destruct (write_text X _ _); reflexivity. }
  split; [exact Hfirst|]. split.
  - intros [|k] path content Hk; [|lia].
    rewrite Hfirst in Hk. discriminate Hk.
  - intros Hwrite.
    assert (Hpersist :
              (persist X folder_name sample_dir i example).1 = false /\
              Exists (fun ev => is_error_log ev = true)
                     (persist X folder_name sample_dir i example).2 /\
              files_after fs (persist X folder_name sample_dir i example).2
                !! image_path sample_dir i = Some (ImageFile img)).
    { unfold persist. rewrite Hfind, Hopen, Hsave.
      destruct (write_text X _ _) as [| e | written e];
        [contradiction | |]; cbn [fst snd].
      - split; [reflexivity|].
        split; [right; left; reflexivity|].
        unfold files_after; simpl. apply lookup_insert_eq.
      - split; [reflexivity|].
        split; [right; right; left; reflexivity|].
        unfold files_after; simpl.
        rewrite lookup_insert_ne
          by (intros Heq; symmetry in Heq;
              exact (image_path_not_caption _ _ _ Heq)).
        apply lookup_insert_eq. }
    destruct Hpersist as (Hfalse & Herr & Hfile).
    repeat split; try assumption.
    + rewrite save_loop_cons. cbn [fst]. rewrite Hfalse. reflexivity.
    + rewrite save_loop_cons. cbn [snd]. rewrite files_after_app.
      rewrite files_after_other by (apply save_loop_later_paths; lia).
      exact Hfile.
Qed.

(** C10. A caption file is only created after the image file of the same
    record: in the trace of the saving loop every caption write is the
    write of [caption_<n+1>.txt] for a position [n] of the selection and is
    preceded by the save of [image_<n+1>.jpg]; so a caption file that the
    run created is never there without its image file; and a record whose
    image field is not found, whose image data is unsupported or does not
    open, or whose image cannot be saved, is skipped without any file
    written. *)
Theorem caption_only_after_image folder_name sample_dir i selected saved_count fs :
  caption_follows_image sample_dir i (i + length selected)
    (save_loop X folder_name sample_dir i selected saved_count).2 /\
  (forall n,
      fs !! caption_path sample_dir n = None ->
      is_Some (files_after fs
                 (save_loop X folder_name sample_dir i selected saved_count).2
               !! caption_path sample_dir n) ->
      exists img,
        files_after fs
          (save_loop X folder_name sample_dir i selected saved_count).2
        !! image_path sample_dir n = Some (ImageFile img)) /\
  (forall example,
      (find_image_field example = None \/
       exists fld data,
         find_image_field example = Some (fld, data) /\
         (open_image X data = Unsupported \/
          (exists e, open_image X data = OpenRaised e) \/
          (exists img e,
              open_image X data = Opened img /\
              image_save X img (image_path sample_dir i) = Some e))) ->
      (persist X folder_name sample_dir i example).1 = false /\
      Forall (fun ev => is_file_event ev = false)
             (persist X folder_name sample_dir i example).2).
Proof.
  split; [apply save_loop_caption_follows_image|]. split.
  - intros n Hfresh Hcaption.
    set (evs := (save_loop X folder_name sample_dir i selected saved_count).2) in *.
    assert (Hwritten :
              Exists (fun ev => written_path ev = Some (caption_path sample_dir n)) evs).
    { exact (files_after_written _ _ _ Hfresh Hcaption). }
    apply Exists_exists in Hwritten as (ev & Hin & Hpath).
    pose proof (save_loop_paths folder_name sample_dir i selected saved_count) as Hpaths.
    fold evs in Hpaths.
    assert (Hcap : exists content, ev = TextWritten (caption_path sample_dir n) content).
    { rewrite Forall_forall in Hpaths. specialize (Hpaths ev Hin).
      destruct ev; simpl in Hpath; try discriminate Hpath;
        injection Hpath as ->.
      - destruct Hpaths as [m Hm]. symmetry in Hm.
        destruct (image_path_not_caption _ _ _ Hm).
      - eauto. }
    destruct Hcap as [content ->].
    apply list_elem_of_lookup in Hin as [k Hk].
    destruct (save_loop_caption_follows_image folder_name sample_dir i selected
                saved_count k _ _ Hk) as (m & img & j & _ & Heq & _ & Hj).
    apply caption_path_inj in Heq. subst m.
    apply files_after_image.
    + eapply Forall_impl; [exact Hpaths|].
      intros [] H content' Heq'; try discriminate Heq'.
      injection Heq' as -> ->. destruct H as [m Hm].
      exact (image_path_not_caption _ _ _ Hm).
    + right. apply Exists_exists. exists (ImageSaved (image_path sample_dir n) img).
      split; [|eauto]. apply list_elem_of_lookup. eauto.
  - intros example Hskip. unfold persist.
    destruct Hskip as [-> | (fld & data & -> & Hskip)];
      [split; [reflexivity | repeat constructor]|].
    destruct Hskip as [-> | [[e ->] | (img & e & -> & ->)]];
      split; try reflexivity; repeat constructor.
Qed.

End Persist.

(** ** A dict of splits as source *)

Section SplitNames.

Context (X : External).

Lemma tagged_logs_only (folder_name : string) (evs : list (event X)) :
  Forall (is_tagged_log folder_name) evs ->
  Forall (fun ev => written_path ev = None) evs /\
  dirs_made evs = [] /\
  Forall (is_tagged folder_name) evs.
Proof.
  induction 1 as [|ev evs Hev _ (IH1 & IH2 & IH3)]; [repeat constructor|].
  destruct ev; simpl in Hev; try contradiction.
  repeat split; [constructor; [reflexivity | exact IH1] | exact IH2 |].
  constructor; [exact Hev | exact IH3].
Qed.

Lemma collect_names_loop_logs folder_name remaining i names_iter samples :
  Forall (is_tagged_log folder_name)
         (collect_names_loop X folder_name remaining i names_iter samples).2.
Proof.
  revert i names_iter samples.
  induction remaining as [|remaining IH]; intros i names_iter samples;
    [constructor|].
  destruct names_iter as [|example rest]; cbn [collect_names_loop].
  - repeat constructor. eexists; reflexivity.
  - specialize (IH (S i) rest (samples ++ [example])).
    destruct (collect_names_loop X folder_name remaining (S i) rest _) as [r evs].
    cbn [snd] in *. apply Forall_app. split; [|exact IH].
    destruct (i mod 20 =? 0); repeat constructor. eexists; reflexivity.
Qed.

(** The keys buffered are the first [remaining] keys of the dict. *)
Lemma collect_names_loop_result folder_name remaining i names_iter samples :
  (collect_names_loop X folder_name remaining i names_iter samples).1
  = samples ++ take remaining names_iter.
Proof.
  revert i names_iter samples.
  induction remaining as [|remaining IH]; intros i names_iter samples.
  - simpl. rewrite take_0, app_nil_r. reflexivity.
  - destruct names_iter as [|example rest]; cbn [collect_names_loop].
    + simpl. rewrite app_nil_r. reflexivity.
    + specialize (IH (S i) rest (samples ++ [example])).
      destruct (collect_names_loop X folder_name remaining (S i) rest _) as [r evs].
      simpl in *. rewrite IH, <- app_assoc. reflexivity.
Qed.

Lemma collect_names_logs folder_name total_samples names :
  Forall (is_tagged_log folder_name)
         (collect_names X folder_name total_samples names).2.
Proof.
  unfold collect_names.
  pose proof (collect_names_loop_logs folder_name total_samples 0 names []) as H.
  destruct (collect_names_loop X folder_name total_samples 0 names []) as [r evs].
  cbn [snd] in *. constructor; [eexists; reflexivity|].
  apply Forall_app. split; [exact H|].
  repeat constructor. eexists; reflexivity.
Qed.

Lemma collect_names_result folder_name total_samples names :
  (collect_names X folder_name total_samples names).1 = take total_samples names.
Proof.
  unfold collect_names.
  pose proof (collect_names_loop_result folder_name total_samples 0 names []) as H.
  destruct (collect_names_loop X folder_name total_samples 0 names []) as [r evs].
  exact H.
Qed.

(** A split name is never saved: handling it as an example raises, and
    the handler of line 159 logs the error. *)
Lemma persist_name_fails folder_name i example :
  exists e,
    persist_name X folder_name i example = (false, [sample_error X folder_name i e]).
Proof.
  unfold persist_name.
  destruct (first_occurring possible_image_fields example); eexists; reflexivity.
Qed.

Lemma save_names_loop_fails folder_name i selected saved_count :
  (save_names_loop X folder_name i selected saved_count).1 = saved_count /\
  Forall (is_tagged_log folder_name)
         (save_names_loop X folder_name i selected saved_count).2 /\
  count_events is_error_log (save_names_loop X folder_name i selected saved_count).2
  = length selected.
Proof.
  revert i.
  induction selected as [|example rest IH]; intros i;
    [repeat split; constructor|].
  cbn [save_names_loop].
  destruct (persist_name_fails folder_name i example) as [e ->].
  destruct (IH (S i)) as (Hcount & Hlogs & Herrors).
  destruct (save_names_loop X folder_name (S i) rest saved_count) as [r evs].
  cbn [fst snd app] in *. split; [exact Hcount|]. split.
  - constructor; [eexists; reflexivity | exact Hlogs].
  - unfold count_events in *. cbn [List.filter is_error_log sample_error length].
    rewrite Herrors. reflexivity.
Qed.

Lemma select_names_never_raises g samples sample_size :
  exists selected, (select_names X g samples sample_size).1 = Returned selected.
Proof.
  unfold select_names.
  destruct (Nat.leb_spec (min sample_size (length samples)) (length samples));
    [|lia].
  destruct (sample_indices X g (length samples) _) as [idxs g'].
  eexists. reflexivity.
Qed.

(** With a dict of splits as source nothing is ever saved: the run
    returns 0 and all it does is log. *)
Lemma save_split_names_returns_zero
    folder_name sample_dir splits sample_size total_samples g :
  (save_split_names X folder_name sample_dir splits sample_size total_samples g).1.1
  = Returned 0 /\
  Forall (is_tagged_log folder_name)
    (save_split_names X folder_name sample_dir splits sample_size
       total_samples g).1.2.
Proof.
  unfold save_split_names.
  pose proof (collect_names_logs folder_name total_samples (map fst splits)) as Hc.
  destruct (collect_names X _ _ _) as [samples evs2]. cbn [snd] in Hc.
  destruct (length samples =? 0); cbn [fst snd].
  { split; [reflexivity|]. apply Forall_app. split; [exact Hc|].
    repeat constructor. eexists; reflexivity. }
  destruct (select_names_never_raises g samples sample_size) as [selected Hsel].
  destruct (select_names X g samples sample_size) as [[selected'|e] g'];
    [|discriminate].
  destruct (save_names_loop_fails folder_name 0 selected' 0) as (Hzero & Hlogs & _).
  destruct (save_names_loop X folder_name 0 selected' 0) as [saved_count evs3].
  cbn [fst snd] in *. subst saved_count. split; [reflexivity|].
  apply Forall_app. split; [exact Hc|].
  apply Forall_app. split; [repeat constructor; eexists; reflexivity|].
  apply Forall_app. split; [exact Hlogs|].
  repeat constructor. eexists; reflexivity.
Qed.

End SplitNames.

(** ** The sampler *)

Section Sampler.

Context (X : External).

(** The loop buffers the examples among the first [remaining] deliveries
    of the iterator. *)
Lemma collect_loop_result folder_name remaining i dataset_iter samples :
  (collect_loop X folder_name remaining i dataset_iter samples).1
  = samples ++ examples_of (take remaining dataset_iter).
Proof.
  revert i dataset_iter samples.
  induction remaining as [|remaining IH]; intros i dataset_iter samples.
  - simpl. rewrite app_nil_r. reflexivity.
  - destruct dataset_iter as [|[example|e] rest]; cbn [collect_loop].
    + simpl. rewrite app_nil_r. reflexivity.
    + specialize (IH (S i) rest (samples ++ [example])).
      destruct (collect_loop X folder_name remaining (S i) rest _) as [r evs].
      simpl in *. rewrite IH, <- app_assoc. reflexivity.
    + specialize (IH (S i) rest samples).
      destruct (collect_loop X folder_name remaining (S i) rest _) as [r evs].
      simpl in *. exact IH.
Qed.

(** An iterator that ends before [remaining] pulls makes the loop log
    the exhaustion, as its last effect. *)
Lemma collect_loop_exhausted folder_name remaining i dataset_iter samples :
  length dataset_iter < remaining ->
  exists evs,
    (collect_loop X folder_name remaining i dataset_iter samples).2
    = evs ++ [exhausted folder_name].
Proof.
  revert remaining i samples.
  induction dataset_iter as [|[example|e] rest IH];
    intros remaining i samples Hlen;
    (destruct remaining as [|remaining]; [simpl in Hlen; lia|]);
    cbn [collect_loop].
  - exists []. reflexivity.
  - destruct (IH remaining (S i) (samples ++ [example])) as [evs Hevs];
      [simpl in Hlen; lia|].
    destruct (collect_loop X folder_name remaining (S i) rest _) as [r evs'].
    simpl in *. subst evs'. eexists. rewrite app_assoc. reflexivity.
  - destruct (IH remaining (S i) samples) as [evs Hevs];
      [simpl in Hlen; lia|].
    destruct (collect_loop X folder_name remaining (S i) rest _) as [r evs'].
    simpl in *. subst evs'. eexists. rewrite app_comm_cons. reflexivity.
Qed.

Lemma examples_of_length (delivered : list fetched) :
  length (examples_of delivered) <= length delivered.
Proof.
  induction delivered as [|[example|e] rest IH]; simpl; lia.
Qed.

Lemma examples_of_fetched (records : list record) :
  examples_of (map Fetched records) = records.
Proof.
  induction records as [|r records IH]; simpl; [reflexivity | rewrite IH; reflexivity].
Qed.

Lemma collect_result folder_name total_samples dataset :
  (collect X folder_name total_samples dataset).1
  = examples_of (take total_samples dataset).
Proof.
  unfold collect.
  pose proof (collect_loop_result folder_name total_samples 0 dataset []) as H.
  destruct (collect_loop X folder_name total_samples 0 dataset []) as [r evs].
  exact H.
Qed.

Lemma collect_exhausted folder_name total_samples dataset :
  length dataset < total_samples ->
  In (exhausted folder_name) (collect X folder_name total_samples dataset).2.
Proof.
  intros Hlen. unfold collect.
  destruct (collect_loop_exhausted folder_name total_samples 0 dataset [] Hlen)
    as [evs Hevs].
  destruct (collect_loop X folder_name total_samples 0 dataset []) as [r evs'].
  simpl in *. subst evs'. right.
  apply in_or_app. left. apply in_or_app. right. left. reflexivity.
Qed.

(** C7. The collection loop never buffers more than [total_samples]
    records: it buffers the examples among the first [total_samples]
    deliveries of the source.  When the source is exhausted before
    [total_samples] pulls it stops there and logs the exhaustion; in
    particular, asking for 100 samples of a source that yields 30 records,
    none of them failing, returns exactly those 30 records and logs the
    exhaustion. *)
Theorem collect_stops_on_exhaustion folder_name total_samples dataset :
  length (collect X folder_name total_samples dataset).1 <= total_samples /\
  (collect X folder_name total_samples dataset).1
    = examples_of (take total_samples dataset) /\
  (length dataset < total_samples ->
   (collect X folder_name total_samples dataset).1 = examples_of dataset /\
   In (exhausted folder_name) (collect X folder_name total_samples dataset).2) /\
  (forall records,
      total_samples = 100 -> length records = 30 ->
      dataset = map Fetched records ->
      (collect X folder_name total_samples dataset).1 = records /\
      length (collect X folder_name total_samples dataset).1 = 30 /\
      In (exhausted folder_name) (collect X folder_name total_samples dataset).2).
Proof.
  assert (Hshort : length dataset < total_samples ->
                   (collect X folder_name total_samples dataset).1 = examples_of dataset /\
                   In (exhausted folder_name)
                      (collect X folder_name total_samples dataset).2).
  { intros Hlen. split; [|apply collect_exhausted, Hlen].
    rewrite collect_result, take_ge by lia. reflexivity. }
  split; [|split; [apply collect_result | split; [exact Hshort|]]].
  - rewrite collect_result.
    etransitivity; [apply examples_of_length|].
    rewrite length_take. lia.
  - intros records -> Hlen ->.
    destruct Hshort as [Hres Hlog]; [rewrite length_map; lia|].
    rewrite Hres, examples_of_fetched. auto.
Qed.

(** ** Selection *)

Lemma save_loop_count folder_name sample_dir i selected saved_count :
  saved_count <= (save_loop X folder_name sample_dir i selected saved_count).1
  /\ (save_loop X folder_name sample_dir i selected saved_count).1
     <= saved_count + length selected.
Proof.
  revert i saved_count.
  induction selected as [|example rest IH]; intros i saved_count.
  - simpl. lia.
  - rewrite save_loop_cons. cbn [fst length].
    destruct (persist X folder_name sample_dir i example).1;
      [specialize (IH (S i) (S saved_count)) | specialize (IH (S i) saved_count)];
      lia.
Qed.

(** What [select] returns under the contract of [random.sample]. *)
Lemma select_returns (Hsample : sample_contract X) g samples sample_size :
  exists idxs,
    (select X g samples sample_size).1
    = Returned (map (fun i => nth i samples []) idxs) /\
    length idxs = min sample_size (length samples) /\
    NoDup idxs /\
    Forall (fun i => i < length samples) idxs.
Proof.
  unfold select, random_sample.
  destruct (Nat.leb_spec (min sample_size (length samples)) (length samples))
    as [Hle|Hgt]; [|lia].
  pose proof (Hsample g (length samples) _ Hle) as Hc.
  destruct (sample_indices X g (length samples) _) as [idxs g'].
  exists idxs. split; [reflexivity | exact Hc].
Qed.

Lemma nth_in_range_lookup (samples : list record) (idxs : list nat) :
  Forall (fun i => i < length samples) idxs ->
  Forall2 (fun i r => samples !! i = Some r) idxs
          (map (fun i => nth i samples []) idxs).
Proof.
  induction 1 as [|i idxs Hi _ IH]; simpl; constructor; [|exact IH].
  destruct (nth_lookup_or_length samples i []) as [Hsome|Hge]; [exact Hsome | lia].
Qed.

Lemma nth_in_range_NoDup (samples : list record) (idxs : list nat) :
  Forall (fun i => i < length samples) idxs ->
  NoDup idxs -> NoDup samples ->
  NoDup (map (fun i => nth i samples []) idxs).
Proof.
  intros Hrange Hidxs Hsamples.
  apply NoDup_ListNoDup.
  apply NoDup_map_NoDup_ForallPairs; [|apply NoDup_ListNoDup, Hidxs].
  intros i j Hi Hj Heq.
  rewrite Forall_forall in Hrange.
  apply list_elem_of_In in Hi, Hj.
  pose proof (Hrange i Hi) as Hi'. pose proof (Hrange j Hj) as Hj'.
  destruct (nth_lookup_or_length samples i []) as [Hsi|]; [|lia].
  destruct (nth_lookup_or_length samples j []) as [Hsj|]; [|lia].
  rewrite Heq in Hsi. exact (NoDup_lookup _ _ _ _ Hsamples Hsi Hsj).
Qed.

(** C1. For every non-empty buffer, [select] returns exactly
    [min(sample_size, len(samples))] records, the records at pairwise
    distinct positions of the buffer (drawn without replacement; pairwise
    distinct records when the buffer has no repetition), so that a dataset
    produces at most [sample_size] saved results.  [random.sample] is
    taken with its documented contract. *)
Theorem select_without_replacement
    (Hsample : sample_contract X) g samples sample_size :
  samples <> [] ->
  (exists selected idxs,
      (select X g samples sample_size).1 = Returned selected /\
      length selected = min sample_size (length samples) /\
      NoDup idxs /\
      Forall2 (fun i r => samples !! i = Some r) idxs selected /\
      (NoDup samples -> NoDup selected) /\
      length selected <= sample_size) /\
  (forall dataset_name total_samples n,
      (save_dataset_examples X dataset_name sample_size total_samples g).1.1
      = Returned n ->
      n <= sample_size).
Proof.
  intros _. split.
  - destruct (select_returns Hsample g samples sample_size)
      as (idxs & Hsel & Hlen & Hnodup & Hrange).
    exists (map (fun i => nth i samples []) idxs), idxs.
    rewrite length_map, Hlen.
    repeat split; try assumption; try lia.
    + apply nth_in_range_lookup, Hrange.
    + apply nth_in_range_NoDup; assumption.
  - intros dataset_name total_samples n. unfold save_dataset_examples.
    destruct (makedirs X _); [discriminate|].
    destruct (open_dataset X _ _) as [[[dataset|splits]|] evs1];
      [| |intros [= <-]; lia].
    2:{ destruct (save_split_names_returns_zero X (folder_of dataset_name)
                    ("samples_" +:+ folder_of dataset_name) splits
                    sample_size total_samples g) as [Hzero _].
        destruct (save_split_names X _ _ _ _ _ _) as [[r evs] g'].
        cbn [fst] in *. subst r. intros [= <-]. lia. }
    destruct (collect X _ _ _) as [buffered evs2].
    destruct (length buffered =? 0); [intros [= <-]; lia|].
    destruct (select_returns Hsample g buffered sample_size)
      as (idxs & Hsel & Hlen & _).
    destruct (select X g buffered sample_size) as [[selected|e] g'];
      [|discriminate].
    simpl in Hsel. injection Hsel as ->.
    pose proof (save_loop_count (folder_of dataset_name)
                  ("samples_" +:+ folder_of dataset_name) 0
                  (map (fun i => nth i buffered []) idxs) 0) as [_ Hcount].
    destruct (save_loop X _ _ 0 _ 0) as [saved_count evs3].
    intros [= <-]. simpl in Hcount. rewrite length_map in Hcount. lia.
Qed.

End Sampler.

(** ** Opening the source, and the driver *)

Section Driver.

Context (X : External).

Lemma open_dataset_failed_trace folder_name dataset_name :
  (open_dataset X folder_name dataset_name).1 = None ->
  Forall (fun ev => is_file_event ev = false)
         (open_dataset X folder_name dataset_name).2 /\
  Exists (fun ev => is_error_log ev = true)
         (open_dataset X folder_name dataset_name).2.
Proof.
  unfold open_dataset.
  destruct (load_dataset X dataset_name "train") as [[msg|msg]|dataset].
  - destruct (load_dataset_dict X dataset_name) as [e|dataset];
      [|discriminate].
    intros _. split; [repeat constructor|].
    right; right; left; reflexivity.
  - intros _. split; [repeat constructor|]. right; left; reflexivity.
  - discriminate.
Qed.

(** A dataset whose source cannot be opened returns 0 without raising, and
    writes no file. *)
Lemma save_dataset_examples_unopened dataset_name sample_size total_samples g :
  makedirs X ("samples_" +:+ folder_of dataset_name) = None ->
  (open_dataset X (folder_of dataset_name) dataset_name).1 = None ->
  (save_dataset_examples X dataset_name sample_size total_samples g).1.1
    = Returned 0 /\
  (save_dataset_examples X dataset_name sample_size total_samples g).2 = g /\
  Forall (fun ev => is_file_event ev = false)
         (save_dataset_examples X dataset_name sample_size total_samples g).1.2 /\
  Exists (fun ev => is_error_log ev = true)
         (save_dataset_examples X dataset_name sample_size total_samples g).1.2.
Proof.
  intros Hdir Hopen.
  destruct (open_dataset_failed_trace _ _ Hopen) as [Hfiles Herr].
  unfold save_dataset_examples. rewrite Hdir.
  destruct (open_dataset X (folder_of dataset_name) dataset_name)
    as [[opened|] evs1]; [discriminate|].
  cbn [fst snd] in *. repeat split.
  - apply Forall_app. split; [repeat constructor | exact Hfiles].
  - apply Exists_app. right. exact Herr.
Qed.

(** The driver goes on after a dataset that returned 0. *)
Lemma process_loop_continues dataset_name rest total_success g :
  (save_dataset_examples X dataset_name 10 100 g).1.1 = Returned 0 ->
  process_loop X (dataset_name :: rest) total_success g =
  ((process_loop X rest total_success
      (save_dataset_examples X dataset_name 10 100 g).2).1.1,
   Logged INFO ("Starting to process dataset '" +:+ dataset_name +:+ "'...")
   :: (save_dataset_examples X dataset_name 10 100 g).1.2
   ++ Logged ERROR ("Failed to process dataset '" +:+ dataset_name +:+ "'")
   :: (process_loop X rest total_success
         (save_dataset_examples X dataset_name 10 100 g).2).1.2,
   (process_loop X rest total_success
      (save_dataset_examples X dataset_name 10 100 g).2).2).
Proof.
  intros Hzero. cbn [process_loop].
  destruct (save_dataset_examples X dataset_name 10 100 g) as [[r evs] g'].
  cbn [fst snd] in *. subst r. cbn [Nat.ltb Nat.leb].
  destruct (process_loop X rest total_success g') as [[r' evs'] g''].
  reflexivity.
Qed.

(** X18. The source is first asked for the [train] split.  The call
    without a split is made if and only if that first call raised
    [ValueError], the error of a missing split.  When the first call
    succeeds its stream is the source and nothing else is tried.  The
    source cannot be opened when the first call raised another exception or
    when both calls raised: then the dataset returns 0 without raising, an
    error is logged, no file is written, and the driver logs the failure
    and goes on with the remaining datasets. *)
Theorem open_dataset_attempts dataset_name :
  let folder_name := folder_of dataset_name in
  let opened := open_dataset X folder_name dataset_name in
  (exists rest, opened.2 = LoadCall dataset_name (Some "train") :: rest) /\
  (In (LoadCall dataset_name None) opened.2 <->
   exists msg, load_dataset X dataset_name "train" = inl (ValueError msg)) /\
  (forall dataset,
      load_dataset X dataset_name "train" = inr dataset ->
      opened = (Some (Stream dataset), [LoadCall dataset_name (Some "train")])) /\
  (opened.1 = None <->
   (exists msg,
       load_dataset X dataset_name "train" = inl (OtherException msg)) \/
   (exists msg e,
       load_dataset X dataset_name "train" = inl (ValueError msg) /\
       load_dataset_dict X dataset_name = inl e)) /\
  (opened.1 = None ->
   makedirs X ("samples_" +:+ folder_name) = None ->
   forall sample_size total_samples g,
     (save_dataset_examples X dataset_name sample_size total_samples g).1.1
       = Returned 0 /\
     Forall (fun ev => is_file_event ev = false)
            (save_dataset_examples X dataset_name sample_size total_samples g).1.2 /\
     Exists (fun ev => is_error_log ev = true)
            (save_dataset_examples X dataset_name sample_size total_samples g).1.2) /\
  (opened.1 = None ->
   makedirs X ("samples_" +:+ folder_name) = None ->
   forall rest total_success g,
     exists evs,
       process_loop X (dataset_name :: rest) total_success g =
       ((process_loop X rest total_success g).1.1,
        evs
        ++ Logged ERROR ("Failed to process dataset '" +:+ dataset_name +:+ "'")
        :: (process_loop X rest total_success g).1.2,
        (process_loop X rest total_success g).2)).
Proof.
  intros folder_name opened.
  split; [|split; [|split; [|split; [|split]]]].
  - subst opened. unfold open_dataset.
    destruct (load_dataset X dataset_name "train") as [[msg|msg]|dataset];
      [destruct (load_dataset_dict X dataset_name)| |]; eauto.
  - subst opened. unfold open_dataset.
    destruct (load_dataset X dataset_name "train") as [[msg|msg]|dataset].
    + split; [eauto|]. intros _.
      destruct (load_dataset_dict X dataset_name); right; left; reflexivity.
    + split.
      * intros [H|[H|[]]]; discriminate H.
      * intros [msg' H]; discriminate H.
    + split.
      * intros [H|[]]; discriminate H.
      * intros [msg' H]; discriminate H.
  - intros dataset H. subst opened. unfold open_dataset. rewrite H. reflexivity.
  - subst opened. unfold open_dataset.
    destruct (load_dataset X dataset_name "train") as [[msg|msg]|dataset].
    + destruct (load_dataset_dict X dataset_name) as [e|splits]; cbn [fst].
      * split; [eauto 6|reflexivity].
      * split; [discriminate|].
        intros [[msg' H]|(msg' & e & _ & H)]; discriminate H.
    + cbn [fst]. split; [eauto|reflexivity].
    + cbn [fst]. split; [discriminate|].
      intros [[msg' H]|(msg' & e & H & _)]; discriminate H.
  - intros Hnone Hdir sample_size total_samples g.
    destruct (save_dataset_examples_unopened dataset_name sample_size
                total_samples g Hdir Hnone) as (H0 & _ & Hfiles & Herr).
    auto.
  - intros Hnone Hdir rest total_success g.
    destruct (save_dataset_examples_unopened dataset_name 10 100 g Hdir Hnone)
      as (H0 & Hg & _).
    rewrite (process_loop_continues _ _ _ _ H0), Hg.
    eexists (_ :: _). reflexivity.
Qed.

(** X19. When the [train] split is missing and the call without a split
    answers, the source is the dict of splits it returned, the warning of
    line 45 is logged, and what is buffered are names of splits, not
    records: handling each selected name as an example raises, so the
    dataset returns 0, writes no file, and the driver reports it as
    failed.  No record of any split is read. *)
Theorem fallback_never_saves
    dataset_name sample_size total_samples g msg splits :
  makedirs X (sample_dir_of dataset_name) = None ->
  load_dataset X dataset_name "train" = inl (ValueError msg) ->
  load_dataset_dict X dataset_name = inr splits ->
  (open_dataset X (folder_of dataset_name) dataset_name).1
    = Some (SplitDict splits) /\
  (collect_names X (folder_of dataset_name) total_samples (map fst splits)).1
    = take total_samples (map fst splits) /\
  In (Logged WARNING
        (tagged (folder_of dataset_name)
           "'train' split not found, using default split"))
     (save_dataset_examples X dataset_name sample_size total_samples g).1.2 /\
  (save_dataset_examples X dataset_name sample_size total_samples g).1.1
    = Returned 0 /\
  Forall (fun ev => written_path ev = None)
         (save_dataset_examples X dataset_name sample_size total_samples g).1.2 /\
  (forall rest total_success,
      exists evs g',
        process_loop X (dataset_name :: rest) total_success g =
        ((process_loop X rest total_success g').1.1,
         evs
         ++ Logged ERROR ("Failed to process dataset '" +:+ dataset_name +:+ "'")
         :: (process_loop X rest total_success g').1.2,
         (process_loop X rest total_success g').2)).
Proof.
  intros Hdir Htrain Hdict.
  assert (Hopen : open_dataset X (folder_of dataset_name) dataset_name
                  = (Some (SplitDict splits),
                     [LoadCall dataset_name (Some "train");
                      LoadCall dataset_name None;
                      Logged WARNING
                        (tagged (folder_of dataset_name)
                           "'train' split not found, using default split")])).
  { unfold open_dataset. rewrite Htrain, Hdict. reflexivity. }
  assert (Hrun : forall k t g0,
             (save_dataset_examples X dataset_name k t g0).1.1 = Returned 0 /\
             In (Logged WARNING
                   (tagged (folder_of dataset_name)
                      "'train' split not found, using default split"))
                (save_dataset_examples X dataset_name k t g0).1.2 /\
             Forall (fun ev => written_path ev = None)
                    (save_dataset_examples X dataset_name k t g0).1.2).
  { intros k t g0. unfold save_dataset_examples.
    unfold sample_dir_of in Hdir. rewrite Hdir, Hopen.
    destruct (save_split_names_returns_zero X (folder_of dataset_name)
                ("samples_" +:+ folder_of dataset_name) splits k t g0)
      as [Hzero Hlogs].
    destruct (save_split_names X _ _ _ _ _ _) as [[r evs] g'].
    cbn [fst snd] in *.
    destruct (tagged_logs_only X _ _ Hlogs) as (Hfiles & _ & _).
    split; [exact Hzero|]. split.
    - apply in_or_app. right. right. right. left. reflexivity.
    - apply Forall_app. split; [repeat constructor|].
      apply Forall_app. split; [repeat constructor | exact Hfiles]. }
  split; [rewrite Hopen; reflexivity|].
  split; [apply collect_names_result|].
  destruct (Hrun sample_size total_samples g) as (Hzero & Hwarn & Hfiles).
  split; [exact Hwarn|]. split; [exact Hzero|]. split; [exact Hfiles|].
  intros rest total_success.
  destruct (Hrun 10 100 g) as (H0 & _ & _).
  rewrite (process_loop_continues _ _ _ _ H0).
  eexists (_ :: _), _. reflexivity.
Qed.

(** C6. With an empty credential the driver does nothing but log one
    error and return: no login, no directory, no call of [load_dataset],
    no file, and the random generator untouched, so that no dataset is
    sampled, selected from or persisted. *)
Theorem empty_credential_aborts (g : rng X) :
  process_all_datasets X "" g =
  (Returned tt,
   [Logged ERROR "Hugging Face API key not set. Please check config.py file."],
   g) /\
  length (filter (fun ev => is_error_log ev) (process_all_datasets X "" g).1.2) = 1 /\
  (forall ev,
      In ev (process_all_datasets X "" g).1.2 ->
      match ev with
      | Logged ERROR _ => True
      | _ => False
      end).
Proof.
  split; [reflexivity|]. split; [reflexivity|].
  intros ev [<-|[]]. exact I.
Qed.

End Driver.

(** ** The properties on the concrete world *)

Lemma pick_contract : sample_contract Fixture.world.
Proof.
  intros g n k Hle. simpl.
  split; [|split].
  - rewrite length_reverse, length_seq. reflexivity.
  - rewrite reverse_Permutation. apply NoDup_seq.
  - apply Forall_reverse, Forall_seq. intros j Hj. lia.
Qed.

Lemma select_without_replacement_witness :
  sample_contract Fixture.world /\
  [Fixture.cat; Fixture.no_image; Fixture.cat] <> [] /\
  exists selected,
    (select Fixture.world 0 [Fixture.cat; Fixture.no_image; Fixture.cat] 2).1
    = Returned selected /\
    length selected = 2.
Proof.
  split; [exact pick_contract|]. split; [discriminate|].
  destruct (proj1 (select_without_replacement Fixture.world pick_contract 0
                     [Fixture.cat; Fixture.no_image; Fixture.cat] 2
                     ltac:(discriminate)))
    as (selected & idxs & Hsel & Hlen & _).
  exists selected. split; [exact Hsel | exact Hlen].
Defined.

Lemma caption_file_content_witness :
  find_image_field Fixture.two_captions = Some ("image", VBytes Fixture.jpeg) /\
  files_after ∅
    (persist Fixture.world "sbu" "samples_sbu" 0 Fixture.two_captions).2
  !! caption_path "samples_sbu" 0
  = Some (TextFile ("[0] a" +:+ newline +:+ "[1] b")).
Proof.
  split; [reflexivity|].
  destruct (caption_file_content Fixture.world "sbu" "samples_sbu" 0
              Fixture.two_captions "image" (VBytes Fixture.jpeg) Fixture.jpeg ∅
              eq_refl eq_refl eq_refl eq_refl)
    as (caption & Hfile & _ & Hab & _).
  rewrite <- (Hab ltac:(intros [v Hv]; discriminate Hv) eq_refl).
  exact Hfile.
Defined.

Lemma persist_without_image_field_witness :
  Forall (fun f => ~ present Fixture.no_image f) possible_image_fields /\
  Forall (fun e => ~ image_like e) Fixture.no_image /\
  (persist Fixture.world "sbu" "samples_sbu" 1 Fixture.no_image).1 = false /\
  files_after ∅ (persist Fixture.world "sbu" "samples_sbu" 1 Fixture.no_image).2
  = ∅.
Proof.
  assert (Hfields : Forall (fun f => ~ present Fixture.no_image f)
                           possible_image_fields)
    by (repeat constructor; intros [v Hv]; discriminate Hv).
  assert (Hitems : Forall (fun e => ~ image_like e) Fixture.no_image)
    by (repeat constructor; intros ([[b Hb] | [d Hd]] & _); discriminate).
  split; [exact Hfields|]. split; [exact Hitems|].
  destruct (persist_without_image_field Fixture.world "sbu" "samples_sbu" 1
              Fixture.no_image ∅ Hfields Hitems) as (Hfalse & _ & _ & Hfs).
  split; [exact Hfalse | exact Hfs].
Defined.

Lemma missing_text_gives_no_caption_witness :
  Forall (fun f => ~ present Fixture.image_only f) possible_text_fields /\
  files_after ∅ (persist Fixture.world "sbu" "samples_sbu" 0 Fixture.image_only).2
  !! caption_path "samples_sbu" 0
  = Some (TextFile "No caption").
Proof.
  assert (Htext : Forall (fun f => ~ present Fixture.image_only f)
                         possible_text_fields)
    by (repeat constructor; intros [v Hv]; discriminate Hv).
  split; [exact Htext|].
  exact (proj2 (proj2
           (missing_text_gives_no_caption Fixture.world "sbu" "samples_sbu" 0
              Fixture.image_only "image" (VBytes Fixture.jpeg) Fixture.jpeg ∅
              eq_refl eq_refl eq_refl Htext eq_refl))).
Defined.

Lemma collect_stops_on_exhaustion_witness :
  length (repeat Fixture.cat 30) = 30 /\
  (collect Fixture.world "sbu" 100 (map Fetched (repeat Fixture.cat 30))).1
  = repeat Fixture.cat 30 /\
  In (exhausted "sbu")
     (collect Fixture.world "sbu" 100 (map Fetched (repeat Fixture.cat 30))).2.
Proof.
  split; [reflexivity|].
  destruct (proj2 (proj2 (proj2
              (collect_stops_on_exhaustion Fixture.world "sbu" 100
                 (map Fetched (repeat Fixture.cat 30)))))
              (repeat Fixture.cat 30) eq_refl eq_refl eq_refl)
    as (Hres & _ & Hlog).
  split; [exact Hres | exact Hlog].
Defined.

Lemma persist_not_atomic_witness :
  write_text Fixture.world (caption_path "samples_full" 0) "a cat" <> WriteOk /\
  (persist Fixture.world "full" "samples_full" 0 Fixture.cat).1 = false /\
  files_after ∅ (persist Fixture.world "full" "samples_full" 0 Fixture.cat).2
  !! image_path "samples_full" 0
  = Some (@ImageFile Fixture.world Fixture.jpeg).
Proof.
  assert (Hwrite : write_text Fixture.world (caption_path "samples_full" 0)
                              "a cat" <> WriteOk) by discriminate.
  split; [exact Hwrite|].
  destruct (proj2 (proj2
              (persist_not_atomic Fixture.world "full" "samples_full" 0
                 Fixture.cat [] "image" (VBytes Fixture.jpeg) Fixture.jpeg ∅ 0
                 eq_refl eq_refl eq_refl)) Hwrite)
    as (Hfalse & _ & Hfile & _).
  split; [exact Hfalse | exact Hfile].
Defined.

Lemma caption_only_after_image_witness :
  find_image_field Fixture.no_image = None /\
  (persist Fixture.world "sbu" "samples_sbu" 1 Fixture.no_image).1 = false /\
  exists img,
    files_after ∅
      (save_loop Fixture.world "sbu" "samples_sbu" 0
         [Fixture.cat; Fixture.no_image; Fixture.cat] 0).2
    !! image_path "samples_sbu" 2 = Some (ImageFile img).
Proof.
  split; [reflexivity|]. split.
  - exact (proj1 (proj2 (proj2
             (caption_only_after_image Fixture.world "sbu" "samples_sbu" 1
                [] 0 ∅)) Fixture.no_image (or_introl eq_refl))).
  - apply (proj1 (proj2
             (caption_only_after_image Fixture.world "sbu" "samples_sbu" 0
                [Fixture.cat; Fixture.no_image; Fixture.cat] 0 ∅)) 2).
    + apply lookup_empty.
    + exists (TextFile "a cat"). vm_compute. reflexivity.
Defined.

(** ** Further properties of the field detection *)

Lemma first_present_inv (fields : list string) (example : record) field v :
  first_present fields example = Some (field, v) ->
  dict_get example field = Some v /\
  exists before after,
    fields = before ++ field :: after /\
    Forall (fun f => ~ present example f) before.
Proof.
  induction fields as [|f fields IH]; simpl; [discriminate|].
  rewrite dict_has_get.
  destruct (dict_get example f) as [w|] eqn:Hget.
  - intros [= <- <-]. split; [exact Hget|]. exists [], fields. split; [reflexivity | constructor].
  - intros H. destruct (IH H) as (Hv & before & after & -> & Hbefore).
    split; [exact Hv|]. exists (f :: before), after.
    split; [reflexivity|]. constructor; [|exact Hbefore].
    unfold present. rewrite Hget. intros [? ?]. discriminate.
Qed.

Lemma first_present_none_inv (fields : list string) (example : record) :
  first_present fields example = None ->
  Forall (fun f => ~ present example f) fields.
Proof.
  induction fields as [|f fields IH]; simpl; [constructor|].
  rewrite dict_has_get.
  destruct (dict_get example f) as [w|] eqn:Hget; [discriminate|].
  intros H. constructor; [|exact (IH H)].
  unfold present. rewrite Hget. intros [? ?]. discriminate.
Qed.

Lemma scan_items_inv (items : list (string * value)) (entry : string * value) :
  scan_items items = Some entry ->
  image_like entry /\
  exists pre post,
    items = pre ++ entry :: post /\ Forall (fun e => ~ image_like e) pre.
Proof.
  induction items as [|[k v] items IH]; cbn [scan_items]; [discriminate|].
  destruct ((is_bytes v || is_dict v) && negb (str_in k excluded_keys)) eqn:E.
  - intros [= <-]. apply scan_test_spec in E.
    split; [exact E|]. exists [], items. split; [reflexivity | constructor].
  - intros H. destruct (IH H) as (Hlike & pre & post & -> & Hpre).
    split; [exact Hlike|]. exists ((k, v) :: pre), post.
    split; [reflexivity|]. constructor; [|exact Hpre].
    intros Hkv. apply scan_test_spec in Hkv. congruence.
Qed.

Lemma scan_items_none_inv (items : list (string * value)) :
  scan_items items = None -> Forall (fun e => ~ image_like e) items.
Proof.
  induction items as [|[k v] items IH]; cbn [scan_items]; [constructor|].
  destruct ((is_bytes v || is_dict v) && negb (str_in k excluded_keys)) eqn:E;
    [discriminate|].
  intros H. constructor; [|exact (IH H)].
  intros Hkv. apply scan_test_spec in Hkv. congruence.
Qed.

(** X1. The text field is found like the image candidates, by ordered,
    first-match-wins detection over [text], [caption], [captions],
    [description], [descriptions], [title]: the first of these names that
    is present is chosen with its value, whatever the order of the record,
    and no text field is found exactly when none of them is present. *)
Theorem text_field_first_match_wins (example : record) :
  possible_text_fields =
    ["text"; "caption"; "captions"; "description"; "descriptions"; "title"] /\
  (forall before field after v,
      possible_text_fields = before ++ field :: after ->
      Forall (fun f => ~ present example f) before ->
      dict_get example field = Some v ->
      find_text_field example = Some (field, v)) /\
  (find_text_field example = None <->
   Forall (fun f => ~ present example f) possible_text_fields).
Proof.
  split; [reflexivity|]. split.
  - intros before field after v Hsplit Hbefore Hget.
    unfold find_text_field. rewrite Hsplit.
    apply first_present_first; assumption.
  - split; [apply first_present_none_inv | apply first_present_none].
Qed.

Lemma text_field_first_match_wins_witness :
  find_text_field
    [("title", VStr "t"); ("caption", VStr "c"); ("image", VBytes Fixture.jpeg)]
  = Some ("caption", VStr "c").
Proof.
  apply (proj1 (proj2 (text_field_first_match_wins
                         [("title", VStr "t"); ("caption", VStr "c");
                          ("image", VBytes Fixture.jpeg)]))
           ["text"] "caption"
           ["captions"; "description"; "descriptions"; "title"]).
  - reflexivity.
  - repeat constructor. intros [v Hv]. discriminate Hv.
  - reflexivity.
Defined.

(** X2. Whatever image field is found is justified by the record: it is
    either one of the candidate names, present with that value, or, no
    candidate name being present, an entry of the record whose value is raw
    bytes or a container and whose key is none of [text], [caption],
    [label].  No image field is found exactly when no candidate name is
    present and no entry qualifies. *)
Theorem image_field_found_inv (example : record) :
  (forall key v,
      find_image_field example = Some (key, v) ->
      (In key possible_image_fields /\ dict_get example key = Some v) \/
      (Forall (fun f => ~ present example f) possible_image_fields /\
       In (key, v) example /\ image_like (key, v))) /\
  (find_image_field example = None <->
   Forall (fun f => ~ present example f) possible_image_fields /\
   Forall (fun e => ~ image_like e) example).
Proof.
  split.
  - intros key v. unfold find_image_field.
    destruct (first_present possible_image_fields example) as [[f w]|] eqn:Hfirst.
    + intros [= -> ->]. left.
      destruct (first_present_inv _ _ _ _ Hfirst) as (Hget & before & after & Hsplit & _).
      split; [|exact Hget]. rewrite Hsplit. apply in_or_app. right. left. reflexivity.
    + intros Hscan. right.
      destruct (scan_items_inv _ _ Hscan) as (Hlike & pre & post & Hsplit & _).
      split; [apply first_present_none_inv, Hfirst|].
      split; [|exact Hlike]. rewrite Hsplit. apply in_or_app. right. left. reflexivity.
  - unfold find_image_field. split.
    + destruct (first_present possible_image_fields example) eqn:Hfirst;
        [intros H; discriminate H|].
      intros Hscan. split;
        [apply first_present_none_inv, Hfirst | apply scan_items_none_inv, Hscan].
    + intros [Hfields Hitems].
      rewrite (first_present_none _ _ Hfields). apply scan_items_none, Hitems.
Qed.

Lemma image_field_found_inv_witness :
  find_image_field Fixture.no_candidate = Some ("payload", VDict []) /\
  image_like ("payload", VDict []).
Proof.
  split; [reflexivity|].
  destruct (proj1 (image_field_found_inv Fixture.no_candidate)
              "payload" (VDict []) eq_refl) as [[Hin _] | (_ & _ & Hlike)].
  - simpl in Hin. repeat (destruct Hin as [Hin|Hin]; [discriminate Hin|]).
    destruct Hin.
  - exact Hlike.
Defined.

(** ** The output directory *)

Lemma str_split_nonempty (sep : ascii) (s : string) : str_split sep s <> [].
Proof.
  destruct s as [|c s]; simpl; [discriminate|].
  destruct (Ascii.eqb c sep); [discriminate|].
  destruct (str_split sep s); discriminate.
Qed.

Lemma str_split_segments (sep : ascii) (s : string) :
  Forall (fun seg => contains sep seg = false) (str_split sep s).
Proof.
  induction s as [|c s IH]; simpl.
  - repeat constructor.
  - destruct (Ascii.eqb c sep) eqn:E.
    + constructor; [reflexivity | exact IH].
    + destruct (str_split sep s) as [|seg segs].
      * repeat constructor. simpl. rewrite E. reflexivity.
      * inversion IH as [|? ? Hseg Hsegs]; subst.
        constructor; [|exact Hsegs]. simpl. rewrite E. exact Hseg.
Qed.

Lemma str_split_no_sep (sep : ascii) (s : string) :
  contains sep s = false -> str_split sep s = [s].
Proof.
  induction s as [|c s IH]; simpl; [reflexivity|].
  destruct (Ascii.eqb c sep); [discriminate|].
  intros H. rewrite (IH H). reflexivity.
Qed.

(** Splitting distributes over a separator. *)
Lemma str_split_app (sep : ascii) (p s : string) :
  str_split sep (p +:+ String sep s) = str_split sep p ++ str_split sep s.
Proof.
  induction p as [|c p IH]; simpl.
  - rewrite Ascii.eqb_refl. reflexivity.
  - destruct (Ascii.eqb c sep); [rewrite IH; reflexivity|].
    rewrite IH.
    pose proof (str_split_nonempty sep p) as Hne.
    destruct (str_split sep p) as [|seg segs]; [contradiction|]. reflexivity.
Qed.

Lemma last_app_nonempty {A} (l1 l2 : list A) (d : A) :
  l2 <> [] -> List.last (l1 ++ l2) d = List.last l2 d.
Proof.
  intros Hne. induction l1 as [|x l1 IH]; [reflexivity|].
  simpl. destruct (l1 ++ l2) eqn:E; [|exact IH].
  apply app_eq_nil in E as [_ ->]. contradiction.
Qed.

Lemma last_Forall {A} (P : A -> Prop) (l : list A) (d : A) :
  l <> [] -> Forall P l -> P (List.last l d).
Proof.
  intros Hne H. induction H as [|x l Hx Hl IH]; [contradiction|].
  destruct l as [|y l]; [exact Hx|]. apply IH. discriminate.
Qed.

(** X3. The output directory only depends on the trailing path segment
    of the dataset identifier: the folder name never contains a slash, it
    is the identifier itself when that has no slash, and everything up to
    the last slash is dropped, so that two identifiers with the same
    trailing segment share one output directory, and an identifier ending
    in a slash gives the empty folder name. *)
Theorem folder_of_trailing_segment :
  (forall name, contains "/" (folder_of name) = false) /\
  (forall s, contains "/" s = false -> folder_of s = s) /\
  (forall p s, folder_of (p +:+ "/" +:+ s) = folder_of s) /\
  (forall p q s,
      contains "/" s = false ->
      sample_dir_of (p +:+ "/" +:+ s) = "samples_" +:+ s /\
      sample_dir_of (p +:+ "/" +:+ s) = sample_dir_of (q +:+ "/" +:+ s)) /\
  (forall p, folder_of (p +:+ "/") = "").
Proof.
  assert (Hdrop : forall p s, folder_of (p +:+ "/" +:+ s) = folder_of s).
  { intros p s. unfold folder_of.
    change (p +:+ "/" +:+ s) with (p +:+ String "/" s).
    rewrite str_split_app. apply last_app_nonempty, str_split_nonempty. }
  assert (Hid : forall s, contains "/" s = false -> folder_of s = s).
  { intros s Hs. unfold folder_of. rewrite (str_split_no_sep _ _ Hs). reflexivity. }
  split; [|split; [exact Hid | split; [exact Hdrop | split]]].
  - intros name. unfold folder_of.
    apply (last_Forall (fun seg => contains "/" seg = false));
      [apply str_split_nonempty | apply str_split_segments].
  - intros p q s Hs. unfold sample_dir_of.
    rewrite !Hdrop, (Hid _ Hs). split; reflexivity.
  - intros p. apply (Hdrop p "").
Qed.

Lemma folder_of_trailing_segment_witness :
  contains "/" "cc12m" = false /\
  sample_dir_of ("dandelin" +:+ "/" +:+ "cc12m") = "samples_cc12m" /\
  sample_dir_of ("dandelin" +:+ "/" +:+ "cc12m")
  = sample_dir_of ("someone/else" +:+ "/" +:+ "cc12m").
Proof.
  split; [reflexivity|].
  exact (proj1 (proj2 (proj2 (proj2 folder_of_trailing_segment)))
           "dandelin" "someone/else" "cc12m" eq_refl).
Defined.

(** ** Further properties of the saving loop *)

Section Saving.

Context (X : External).
Implicit Types (example : record) (fs : gmap string (file X)).

Lemma open_image_unsupported (v : value) :
  is_bytes v = false ->
  (forall d, v = VDict d -> dict_get d "bytes" = None) ->
  open_image X v = Unsupported.
Proof.
  intros Hbytes Hdict. destruct v; try reflexivity; [discriminate Hbytes|].
  simpl. rewrite dict_has_get, (Hdict d eq_refl). reflexivity.
Qed.

(** X4. A record counts as saved exactly when its image field is found,
    the image opens, the image is saved and the caption is written; both
    files are then in the output directory, the image under
    [image_<i+1>.jpg] and the normalised text under [caption_<i+1>.txt],
    whatever was there before. *)
Theorem persist_saved_iff folder_name sample_dir i example :
  ((persist X folder_name sample_dir i example).1 = true <->
   exists fld data img,
     find_image_field example = Some (fld, data) /\
     open_image X data = Opened img /\
     image_save X img (image_path sample_dir i) = None /\
     write_text X (caption_path sample_dir i)
                (caption_of X (find_text_field example)) = WriteOk) /\
  ((persist X folder_name sample_dir i example).1 = true ->
   forall fs,
     (exists img,
         files_after fs (persist X folder_name sample_dir i example).2
         !! image_path sample_dir i = Some (ImageFile img)) /\
     files_after fs (persist X folder_name sample_dir i example).2
     !! caption_path sample_dir i
     = Some (TextFile (caption_of X (find_text_field example)))).
Proof.
  assert (Hiff :
            (persist X folder_name sample_dir i example).1 = true ->
            exists fld data img,
              find_image_field example = Some (fld, data) /\
              open_image X data = Opened img /\
              image_save X img (image_path sample_dir i) = None /\
              write_text X (caption_path sample_dir i)
                         (caption_of X (find_text_field example)) = WriteOk).
  { unfold persist.
    destruct (find_image_field example) as [[fld data]|] eqn:Hfind;
      [|discriminate].
    destruct (open_image X data) as [img| |e] eqn:Hopen; try discriminate.
    destruct (image_save X img _) eqn:Hsave; [discriminate|].
    destruct (write_text X _ _) eqn:Hwrite; try discriminate.
    intros _. exists fld, data, img. repeat split; assumption. }
  split; [split; [exact Hiff|]|].
  - intros (fld & data & img & Hfind & Hopen & Hsave & Hwrite).
    destruct (persist_saved X folder_name _ _ _ _ _ _ Hfind Hopen Hsave Hwrite)
      as (info & debug & ->). reflexivity.
  - intros Htrue fs.
    destruct (Hiff Htrue) as (fld & data & img & Hfind & Hopen & Hsave & Hwrite).
    destruct (persist_saved X folder_name _ _ _ _ _ _ Hfind Hopen Hsave Hwrite)
      as (info & debug & ->).
    split; [exists img|]; unfold files_after; simpl.
    + rewrite lookup_insert_ne
        by (intros Heq; symmetry in Heq;
            exact (image_path_not_caption _ _ _ Heq)).
      apply lookup_insert_eq.
    + apply lookup_insert_eq.
Qed.

(** X5. When the first candidate image name present in a record holds
    neither raw bytes nor a container with a [bytes] entry (an already
    decoded image object, a URL string, [None], ...), the record is
    skipped with the warning of line 117 and nothing is written: the other
    entries of the record are not scanned, whatever they hold. *)
Theorem unsupported_image_is_skipped
    folder_name sample_dir i example before field after v :
  possible_image_fields = before ++ field :: after ->
  Forall (fun f => ~ present example f) before ->
  dict_get example field = Some v ->
  is_bytes v = false ->
  (forall d, v = VDict d -> dict_get d "bytes" = None) ->
  persist X folder_name sample_dir i example =
  (false,
   [Logged WARNING
      (tagged folder_name ("Unsupported image format: " +:+ type_str v))]).
Proof.
  intros Hsplit Hbefore Hget Hbytes Hdict. unfold persist, find_image_field.
  rewrite Hsplit, (first_present_first _ _ _ _ _ Hbefore Hget).
  rewrite (open_image_unsupported _ Hbytes Hdict). reflexivity.
Qed.

Lemma count_events_app (kind : event X -> bool) (evs1 evs2 : list (event X)) :
  count_events kind (evs1 ++ evs2) = count_events kind evs1 + count_events kind evs2.
Proof. unfold count_events. rewrite List.filter_app, length_app. reflexivity. Qed.

Lemma persist_problem_logged folder_name sample_dir i example :
  count_events is_problem_log (persist X folder_name sample_dir i example).2
  = if (persist X folder_name sample_dir i example).1 then 0 else 1.
Proof.
  unfold persist.
  destruct (find_image_field example) as [[fld data]|]; [|reflexivity].
  destruct (open_image X data); try reflexivity.
  destruct (image_save X img _); [reflexivity|].
  destruct (write_text X _ _); reflexivity.
Qed.

(** X6. Every selected record is accounted for: it is either counted in
    [saved_count] or reported by exactly one warning or error entry of the
    log, so the count returned plus the number of such entries is the
    number of selected records. *)
Theorem every_record_counted_or_logged
    folder_name sample_dir i selected saved_count :
  (save_loop X folder_name sample_dir i selected saved_count).1
  + count_events is_problem_log
      (save_loop X folder_name sample_dir i selected saved_count).2
  = saved_count + length selected.
Proof.
  revert i saved_count.
  induction selected as [|example rest IH]; intros i saved_count.
  - unfold count_events. simpl. lia.
  - rewrite save_loop_cons. cbn [fst snd length].
    rewrite count_events_app, persist_problem_logged.
    destruct (persist X folder_name sample_dir i example).1;
      [specialize (IH (S i) (S saved_count)) | specialize (IH (S i) saved_count)];
      lia.
Qed.

Lemma persist_file_counts folder_name sample_dir i example :
  (if (persist X folder_name sample_dir i example).1 then 1 else 0)
  <= count_events is_text_written (persist X folder_name sample_dir i example).2
  /\ count_events is_text_written (persist X folder_name sample_dir i example).2
     <= count_events is_image_saved (persist X folder_name sample_dir i example).2
  /\ count_events is_image_saved (persist X folder_name sample_dir i example).2 <= 1.
Proof.
  unfold persist.
  destruct (find_image_field example) as [[fld data]|]; [|cbn; lia].
  destruct (open_image X data); try (cbn; lia).
  destruct (image_save X img _); [cbn; lia|].
  destruct (write_text X _ _); cbn; lia.
Qed.

(** X7. Image files can outnumber the returned count, never the
    reverse: over a run of the saving loop, the records counted as saved
    are at most the caption files written, these at most the image files
    saved, and these at most the records selected. *)
Theorem saved_count_bounds_files folder_name sample_dir i selected saved_count :
  (save_loop X folder_name sample_dir i selected saved_count).1 - saved_count
  <= count_events is_text_written
       (save_loop X folder_name sample_dir i selected saved_count).2
  /\ count_events is_text_written
       (save_loop X folder_name sample_dir i selected saved_count).2
     <= count_events is_image_saved
          (save_loop X folder_name sample_dir i selected saved_count).2
  /\ count_events is_image_saved
       (save_loop X folder_name sample_dir i selected saved_count).2
     <= length selected.
Proof.
  revert i saved_count.
  induction selected as [|example rest IH]; intros i saved_count.
  - cbn. lia.
  - rewrite save_loop_cons. cbn [fst snd length].
    rewrite !count_events_app.
    pose proof (persist_file_counts folder_name sample_dir i example) as Hp.
    pose proof (save_loop_count X folder_name sample_dir (S i) rest) as Hc.
    destruct (persist X folder_name sample_dir i example).1;
      [specialize (IH (S i) (S saved_count));
       specialize (Hc (S saved_count))
      | specialize (IH (S i) saved_count); specialize (Hc saved_count)];
      lia.
Qed.

End Saving.

Lemma persist_saved_iff_witness :
  (persist Fixture.world "sbu" "samples_sbu" 0 Fixture.cat).1 = true /\
  files_after ∅ (persist Fixture.world "sbu" "samples_sbu" 0 Fixture.cat).2
  !! caption_path "samples_sbu" 0
  = Some (TextFile "a cat").
Proof.
  assert (Htrue : (persist Fixture.world "sbu" "samples_sbu" 0 Fixture.cat).1 = true).
  { apply (proj1 (persist_saved_iff Fixture.world "sbu" "samples_sbu" 0 Fixture.cat)).
    exists "image", (VBytes Fixture.jpeg), Fixture.jpeg.
    repeat split; reflexivity. }
  split; [exact Htrue|].
  exact (proj2 (proj2 (persist_saved_iff Fixture.world "sbu" "samples_sbu" 0
                         Fixture.cat) Htrue ∅)).
Defined.

Lemma unsupported_image_is_skipped_witness :
  dict_get Fixture.decoded "image" = Some (VObj "JpegImageFile" "<PIL image>") /\
  exists b, dict_get Fixture.decoded "raw" = Some (VBytes b) /\
  (persist Fixture.world "sbu" "samples_sbu" 0 Fixture.decoded).1 = false.
Proof.
  split; [reflexivity|]. exists Fixture.jpeg. split; [reflexivity|].
  rewrite (unsupported_image_is_skipped Fixture.world "sbu" "samples_sbu" 0
             Fixture.decoded [] "image" ["img"; "images"; "image_data"; "photo"]
             (VObj "JpegImageFile" "<PIL image>")
             eq_refl ltac:(constructor) eq_refl eq_refl
             ltac:(intros d Hd; discriminate Hd)).
  reflexivity.
Defined.

(** ** The files of a run *)

Section Files.

Context (X : External).
Implicit Types (example : record) (fs : gmap string (file X)).

(** The files written from position [i] on are files of the positions
    [i <= n < i + len]. *)
Lemma save_loop_paths_range folder_name sample_dir i selected saved_count :
  Forall (fun ev =>
            forall path,
              written_path ev = Some path ->
              exists n,
                (i <= n /\ n < i + length selected) /\
                (path = image_path sample_dir n \/
                 path = caption_path sample_dir n))
         (save_loop X folder_name sample_dir i selected saved_count).2.
Proof.
  revert i saved_count.
  induction selected as [|example rest IH]; intros i saved_count.
  - constructor.
  - rewrite save_loop_cons. cbn [snd length]. apply Forall_app. split.
    + eapply Forall_impl; [apply persist_paths|].
      intros ev H p Hp.
      destruct ev; simpl in Hp; try discriminate Hp;
        injection Hp as <-; exists i; (split; [lia|]); auto.
    + eapply Forall_impl; [apply (IH (S i))|].
      intros ev H path Hpath. destruct (H path Hpath) as (n & Hn & Hp).
      exists n. split; [lia | exact Hp].
Qed.

Lemma position_paths_distinct (sample_dir : string) (n m : nat) :
  n <> m ->
  forall path,
    (path = image_path sample_dir n \/ path = caption_path sample_dir n) ->
    path <> image_path sample_dir m /\ path <> caption_path sample_dir m.
Proof.
  intros Hne path [-> | ->]; split; intros Heq.
  - apply image_path_inj in Heq. contradiction.
  - exact (image_path_not_caption _ _ _ Heq).
  - symmetry in Heq. exact (image_path_not_caption _ _ _ Heq).
  - apply caption_path_inj in Heq. contradiction.
Qed.

Lemma persist_true_files folder_name sample_dir i example fs :
  (persist X folder_name sample_dir i example).1 = true ->
  (exists img,
      files_after fs (persist X folder_name sample_dir i example).2
      !! image_path sample_dir i = Some (ImageFile img)) /\
  files_after fs (persist X folder_name sample_dir i example).2
  !! caption_path sample_dir i
  = Some (TextFile (caption_of X (find_text_field example))).
Proof.
  unfold persist.
  destruct (find_image_field example) as [[fld data]|]; [|discriminate].
  destruct (open_image X data) as [img| |e]; try discriminate.
  destruct (image_save X img _); [discriminate|].
  destruct (write_text X _ _); try discriminate.
  intros _. unfold files_after; simpl. split; [exists img|].
  - rewrite lookup_insert_ne
      by (intros Heq; symmetry in Heq;
          exact (image_path_not_caption _ _ _ Heq)).
    apply lookup_insert_eq.
  - apply lookup_insert_eq.
Qed.

(** X8. The two files of a record counted as saved are still there, with
    the image and the caption of that very record, when the whole selection
    has been processed: later records write under other numbers. *)
Theorem saved_pairs_remain
    folder_name sample_dir i selected saved_count k example fs :
  selected !! k = Some example ->
  (persist X folder_name sample_dir (i + k) example).1 = true ->
  (exists img,
      files_after fs (save_loop X folder_name sample_dir i selected saved_count).2
      !! image_path sample_dir (i + k) = Some (ImageFile img)) /\
  files_after fs (save_loop X folder_name sample_dir i selected saved_count).2
  !! caption_path sample_dir (i + k)
  = Some (TextFile (caption_of X (find_text_field example))).
Proof.
  revert i k saved_count fs.
  induction selected as [|first rest IH]; intros i k saved_count fs Hk Htrue;
    [discriminate Hk|].
  rewrite save_loop_cons. cbn [snd]. rewrite files_after_app.
  destruct k as [|k].
  - injection Hk as ->. rewrite Nat.add_0_r in *.
    assert (Hlater :
              forall path,
                (path = image_path sample_dir i \/ path = caption_path sample_dir i) ->
                Forall (fun ev => written_path ev <> Some path)
                  (save_loop X folder_name sample_dir (S i) rest
                     (if (persist X folder_name sample_dir i example).1
                      then S saved_count else saved_count)).2).
    { intros path Hpath.
      eapply Forall_impl; [apply save_loop_paths_range|].
      intros ev H Hev. destruct (H path Hev) as (n & Hn & Hp).
      destruct (position_paths_distinct sample_dir n i ltac:(lia) path Hp)
        as [H1 H2].
      destruct Hpath; contradiction. }
    destruct (persist_true_files folder_name sample_dir i example fs Htrue)
      as [[img Himg] Hcap].
    split; [exists img|];
      rewrite files_after_other by (apply Hlater; auto); assumption.
  - replace (i + S k) with (S i + k) in * by lia.
    apply IH; assumption.
Qed.

Lemma open_dataset_no_files folder_name dataset_name :
  Forall (fun ev => written_path ev = None)
         (open_dataset X folder_name dataset_name).2.
Proof.
  unfold open_dataset.
  destruct (load_dataset X dataset_name "train") as [[msg|msg]|dataset];
    [destruct (load_dataset_dict X dataset_name)| |]; repeat constructor.
Qed.

Lemma collect_loop_no_files folder_name remaining i dataset_iter samples :
  Forall (fun ev => written_path ev = None)
         (collect_loop X folder_name remaining i dataset_iter samples).2.
Proof.
  revert i dataset_iter samples.
  induction remaining as [|remaining IH]; intros i dataset_iter samples;
    [constructor|].
  destruct dataset_iter as [|[example|e] rest]; cbn [collect_loop].
  - repeat constructor.
  - specialize (IH (S i) rest (samples ++ [example])).
    destruct (collect_loop X folder_name remaining (S i) rest _) as [r evs].
    cbn [snd] in *. apply Forall_app. split; [|exact IH].
    destruct (i mod 20 =? 0); repeat constructor.
  - specialize (IH (S i) rest samples).
    destruct (collect_loop X folder_name remaining (S i) rest _) as [r evs].
    cbn [snd] in *. constructor; [reflexivity | exact IH].
Qed.

Lemma collect_no_files folder_name total_samples dataset :
  Forall (fun ev => written_path ev = None)
         (collect X folder_name total_samples dataset).2.
Proof.
  unfold collect.
  pose proof (collect_loop_no_files folder_name total_samples 0 dataset []) as H.
  destruct (collect_loop X folder_name total_samples 0 dataset []) as [r evs].
  cbn [snd] in *. constructor; [reflexivity|].
  apply Forall_app. split; [exact H | repeat constructor].
Qed.

(** X9. A dataset run only ever writes the numbered files of its own
    directory: every file it writes is [image_<n+1>.jpg] or
    [caption_<n+1>.txt] of [samples_<folder>] with [n < sample_size], and
    every other path of the file system keeps its content; in particular
    nothing is deleted, and files left by an earlier run under higher
    numbers stay.  [random.sample] is taken with its contract. *)
Theorem writes_confined (Hsample : sample_contract X)
    dataset_name sample_size total_samples g :
  Forall (fun ev =>
            forall path,
              written_path ev = Some path ->
              exists n,
                n < sample_size /\
                (path = image_path (sample_dir_of dataset_name) n \/
                 path = caption_path (sample_dir_of dataset_name) n))
         (save_dataset_examples X dataset_name sample_size total_samples g).1.2 /\
  (forall fs path,
      (forall n, n < sample_size ->
                 path <> image_path (sample_dir_of dataset_name) n /\
                 path <> caption_path (sample_dir_of dataset_name) n) ->
      files_after fs
        (save_dataset_examples X dataset_name sample_size total_samples g).1.2
      !! path = fs !! path).
Proof.
  assert (Hpaths :
            Forall (fun ev =>
                      forall path,
                        written_path ev = Some path ->
                        exists n,
                          n < sample_size /\
                          (path = image_path (sample_dir_of dataset_name) n \/
                           path = caption_path (sample_dir_of dataset_name) n))
              (save_dataset_examples X dataset_name sample_size total_samples g).1.2).
  { assert (Hnone : forall evs : list (event X),
               Forall (fun ev => written_path ev = None) evs ->
               Forall (fun ev =>
                         forall path,
                           written_path ev = Some path ->
                           exists n,
                             n < sample_size /\
                             (path = image_path (sample_dir_of dataset_name) n \/
                              path = caption_path (sample_dir_of dataset_name) n))
                      evs).
    { intros evs H. eapply Forall_impl; [exact H|].
      intros ev Hev path Hpath. congruence. }
    unfold save_dataset_examples, sample_dir_of.
    destruct (makedirs X _); [constructor|].
    pose proof (open_dataset_no_files (folder_of dataset_name) dataset_name) as Ho.
    destruct (open_dataset X _ _) as [[[dataset|splits]|] evs1];
      cbn [fst snd] in *.
    3:{ apply Forall_app. split; [|apply Hnone, Ho].
        apply Hnone. repeat constructor. }
    2:{ destruct (save_split_names_returns_zero X (folder_of dataset_name)
                    ("samples_" +:+ folder_of dataset_name) splits
                    sample_size total_samples g) as [_ Hlogs].
        destruct (save_split_names X _ _ _ _ _ _) as [[r evs] g'].
        cbn [fst snd] in *.
        destruct (tagged_logs_only X _ _ Hlogs) as (Hfiles & _ & _).
        apply Forall_app. split; [apply Hnone; repeat constructor|].
        apply Forall_app. split; [apply Hnone, Ho | apply Hnone, Hfiles]. }
    pose proof (collect_no_files (folder_of dataset_name) total_samples dataset) as Hc.
    destruct (collect X _ _ _) as [buffered evs2]; cbn [fst snd] in *.
    destruct (length buffered =? 0); cbn [fst snd].
    { apply Forall_app. split; [apply Hnone; repeat constructor|].
      apply Forall_app. split; [apply Hnone, Ho|].
      apply Forall_app. split; [apply Hnone, Hc|].
      apply Hnone. repeat constructor. }
    destruct (select_returns X Hsample g buffered sample_size)
      as (idxs & Hsel & Hlen & _).
    destruct (select X g buffered sample_size) as [[selected|e] g'];
      [|discriminate].
    simpl in Hsel. injection Hsel as ->.
    pose proof (save_loop_paths_range (folder_of dataset_name)
                  ("samples_" +:+ folder_of dataset_name) 0
                  (map (fun i => nth i buffered []) idxs) 0) as Hs.
    destruct (save_loop X _ _ 0 _ 0) as [saved_count evs3]; cbn [fst snd] in *.
    apply Forall_app. split; [apply Hnone; repeat constructor|].
    apply Forall_app. split; [apply Hnone, Ho|].
    apply Forall_app. split; [apply Hnone, Hc|].
    apply Forall_app. split; [apply Hnone; repeat constructor|].
    apply Forall_app. split; [|apply Hnone; repeat constructor].
    eapply Forall_impl; [exact Hs|].
    intros ev H path Hpath. destruct (H path Hpath) as (n & Hn & Hp).
    exists n. split; [|exact Hp].
    rewrite length_map, Hlen in Hn. lia. }
  split; [exact Hpaths|].
  intros fs path Hother. apply files_after_other.
  eapply Forall_impl; [exact Hpaths|].
  intros ev H Hev. destruct (H path Hev) as (n & Hn & Hp).
  destruct (Hother n Hn) as [H1 H2]. destruct Hp; contradiction.
Qed.

End Files.

Lemma saved_pairs_remain_witness :
  [Fixture.cat; Fixture.no_image; Fixture.cat] !! 2 = Some Fixture.cat /\
  (persist Fixture.world "sbu" "samples_sbu" (0 + 2) Fixture.cat).1 = true /\
  files_after ∅
    (save_loop Fixture.world "sbu" "samples_sbu" 0
       [Fixture.cat; Fixture.no_image; Fixture.cat] 0).2
  !! caption_path "samples_sbu" (0 + 2)
  = Some (TextFile "a cat").
Proof.
  split; [reflexivity|]. split; [reflexivity|].
  exact (proj2 (saved_pairs_remain Fixture.world "sbu" "samples_sbu" 0
                  [Fixture.cat; Fixture.no_image; Fixture.cat] 0 2 Fixture.cat ∅
                  eq_refl eq_refl)).
Defined.

Lemma writes_confined_witness :
  sample_contract Fixture.world /\
  files_after {[ image_path "samples_sbu" 98 := TextFile "left by an earlier run" ]}
    (save_dataset_examples Fixture.world "dandelin/sbu" 10 100 0).1.2
  !! image_path "samples_sbu" 98
  = Some (TextFile "left by an earlier run").
Proof.
  split; [exact pick_contract|].
  rewrite (proj2 (writes_confined Fixture.world pick_contract
                    "dandelin/sbu" 10 100 0)).
  - apply lookup_singleton_eq.
  - intros n Hn. split; intros Heq.
    + apply image_path_inj in Heq. lia.
    + exact (image_path_not_caption _ _ _ Heq).
Defined.

(** ** Further properties of the sampler *)

Section Buffer.

Context (X : External).

Lemma examples_and_errors (delivered : list fetched) :
  length (examples_of delivered) + fetch_errors delivered = length delivered.
Proof.
  induction delivered as [|[example|e] rest IH]; simpl; lia.
Qed.

Lemma collect_loop_errors folder_name remaining i dataset_iter samples :
  count_events is_error_log
    (collect_loop X folder_name remaining i dataset_iter samples).2
  = fetch_errors (take remaining dataset_iter).
Proof.
  revert i dataset_iter samples.
  induction remaining as [|remaining IH]; intros i dataset_iter samples;
    [destruct dataset_iter; reflexivity|].
  destruct dataset_iter as [|[example|e] rest]; cbn [collect_loop].
  - reflexivity.
  - specialize (IH (S i) rest (samples ++ [example])).
    destruct (collect_loop X folder_name remaining (S i) rest _) as [r evs].
    cbn [snd] in *. rewrite count_events_app, IH.
    destruct (i mod 20 =? 0); reflexivity.
  - specialize (IH (S i) rest samples).
    destruct (collect_loop X folder_name remaining (S i) rest _) as [r evs].
    cbn [snd] in *. cbn [take fetch_errors]. rewrite <- IH. reflexivity.
Qed.

(** X10. A delivery that raises uses up one of the [total_samples] pulls:
    the records buffered and the failed pulls together are
    [min(total_samples, len(source))], so after [k] failures at most
    [total_samples - k] records are buffered even when the source has
    more; each failed pull is logged as one error. *)
Theorem fetch_failures_use_up_pulls folder_name total_samples dataset :
  length (collect X folder_name total_samples dataset).1
  + fetch_errors (take total_samples dataset)
  = min total_samples (length dataset) /\
  count_events is_error_log (collect X folder_name total_samples dataset).2
  = fetch_errors (take total_samples dataset).
Proof.
  split.
  - rewrite collect_result, examples_and_errors, length_take. reflexivity.
  - unfold collect.
    pose proof (collect_loop_errors folder_name total_samples 0 dataset []) as H.
    destruct (collect_loop X folder_name total_samples 0 dataset []) as [r evs].
    cbn [snd] in *. 
    change (Logged INFO ?m :: ?l) with ([Logged (X:=X) INFO m] ++ l).
    rewrite !count_events_app, H. cbn. lia.
Qed.

Lemma collect_loop_not_exhausted folder_name remaining i dataset_iter samples :
  remaining <= length dataset_iter ->
  ~ In (exhausted folder_name)
       (collect_loop X folder_name remaining i dataset_iter samples).2.
Proof.
  revert i dataset_iter samples.
  induction remaining as [|remaining IH]; intros i dataset_iter samples Hlen;
    [intros []|].
  destruct dataset_iter as [|[example|e] rest]; cbn [collect_loop];
    [simpl in Hlen; lia | |].
  - specialize (IH (S i) rest (samples ++ [example]) ltac:(simpl in Hlen; lia)).
    destruct (collect_loop X folder_name remaining (S i) rest _) as [r evs].
    cbn [snd] in *. intros Hin. apply in_app_or in Hin as [Hin|Hin]; [|auto].
    destruct (i mod 20 =? 0); [|destruct Hin].
    destruct Hin as [Hin|[]]. discriminate Hin.
  - specialize (IH (S i) rest samples ltac:(simpl in Hlen; lia)).
    destruct (collect_loop X folder_name remaining (S i) rest _) as [r evs].
    cbn [snd] in *. intros [Hin|Hin]; [discriminate Hin | auto].
Qed.

(** X11. The exhaustion warning is logged exactly when the source ends
    before [total_samples] pulls: a source with at least [total_samples]
    deliveries is never reported as exhausted, and is not pulled beyond
    them. *)
Theorem exhaustion_logged_iff folder_name total_samples dataset :
  (In (exhausted folder_name) (collect X folder_name total_samples dataset).2 <->
   length dataset < total_samples) /\
  (forall more,
      total_samples <= length dataset ->
      collect X folder_name total_samples (dataset ++ more)
      = collect X folder_name total_samples dataset).
Proof.
  split.
  - split; [|apply collect_exhausted].
    intros Hin. destruct (Nat.lt_ge_cases (length dataset) total_samples)
      as [Hlt|Hge]; [exact Hlt|].
    exfalso. unfold collect in Hin.
    pose proof (collect_loop_not_exhausted folder_name total_samples 0 dataset []
                  Hge) as Hnot.
    destruct (collect_loop X folder_name total_samples 0 dataset []) as [r evs].
    cbn [snd] in *. destruct Hin as [Hin|Hin]; [discriminate Hin|].
    apply in_app_or in Hin as [Hin|[Hin|[]]]; [auto | discriminate Hin].
  - intros more Hge. unfold collect.
    assert (Hloop : forall remaining i it samples,
               remaining <= length it ->
               collect_loop X folder_name remaining i (it ++ more) samples
               = collect_loop X folder_name remaining i it samples).
    { induction remaining as [|remaining IH]; intros i it samples Hlen;
        [reflexivity|].
      destruct it as [|[example|e] rest]; [simpl in Hlen; lia | |];
        cbn [collect_loop app]; rewrite IH by (simpl in Hlen; lia);
        reflexivity. }
    rewrite Hloop by exact Hge. reflexivity.
Qed.

(** X12. A source that opens but delivers no example within
    [total_samples] pulls (an empty stream, only failed pulls, or
    [total_samples = 0]) makes the dataset return 0: the error of line 73
    is logged, nothing is selected (the random generator is not used) and
    no file is written. *)
Theorem nothing_buffered_returns_zero
    dataset_name sample_size total_samples g dataset :
  makedirs X (sample_dir_of dataset_name) = None ->
  (open_dataset X (folder_of dataset_name) dataset_name).1
    = Some (Stream dataset) ->
  examples_of (take total_samples dataset) = [] ->
  (save_dataset_examples X dataset_name sample_size total_samples g).1.1
  = Returned 0 /\
  (save_dataset_examples X dataset_name sample_size total_samples g).2 = g /\
  Forall (fun ev => written_path ev = None)
         (save_dataset_examples X dataset_name sample_size total_samples g).1.2 /\
  In (Logged ERROR (tagged (folder_of dataset_name) "No samples available."))
     (save_dataset_examples X dataset_name sample_size total_samples g).1.2.
Proof.
  intros Hdir Hopen Hnone. unfold sample_dir_of in Hdir.
  unfold save_dataset_examples. rewrite Hdir.
  pose proof (open_dataset_no_files X (folder_of dataset_name) dataset_name) as Ho.
  destruct (open_dataset X _ _) as [[opened|] evs1]; [|discriminate].
  cbn [fst snd] in *. injection Hopen as ->. cbv iota beta.
  pose proof (collect_result X (folder_of dataset_name) total_samples dataset) as Hres.
  pose proof (collect_no_files X (folder_of dataset_name) total_samples dataset) as Hc.
  destruct (collect X _ _ _) as [buffered evs2]. cbn [fst snd] in *.
  rewrite Hres, Hnone. cbn [length Nat.eqb fst snd].
  repeat split.
  - repeat (apply Forall_app; split); try assumption; repeat constructor.
  - apply in_or_app. right. apply in_or_app. right.
    apply in_or_app. right. left. reflexivity.
Qed.

End Buffer.

Lemma exhaustion_logged_iff_witness :
  ~ In (exhausted "sbu")
       (collect Fixture.world "sbu" 2
          [Fetched Fixture.cat; Fetched Fixture.no_image; Fetched Fixture.cat]).2 /\
  In (exhausted "sbu")
     (collect Fixture.world "sbu" 4
        [Fetched Fixture.cat; Fetched Fixture.no_image; Fetched Fixture.cat]).2.
Proof.
  split.
  - intros Hin.
    apply (proj1 (exhaustion_logged_iff Fixture.world "sbu" 2
                    [Fetched Fixture.cat; Fetched Fixture.no_image;
                     Fetched Fixture.cat])) in Hin.
    simpl in Hin. lia.
  - apply (proj1 (exhaustion_logged_iff Fixture.world "sbu" 4
                    [Fetched Fixture.cat; Fetched Fixture.no_image;
                     Fetched Fixture.cat])).
    simpl. lia.
Defined.

Lemma nothing_buffered_returns_zero_witness :
  makedirs Fixture.world (sample_dir_of "dandelin/sbu") = None /\
  (save_dataset_examples Fixture.world "dandelin/sbu" 10 0 7).1.1 = Returned 0 /\
  (save_dataset_examples Fixture.world "dandelin/sbu" 10 0 7).2 = 7.
Proof.
  split; [reflexivity|].
  destruct (nothing_buffered_returns_zero Fixture.world "dandelin/sbu" 10 0 7
              [Fetched Fixture.cat; Fetched Fixture.no_image; Fetched Fixture.cat]
              eq_refl eq_refl eq_refl) as (Hzero & Hrng & _).
  split; [exact Hzero | exact Hrng].
Defined.

(** ** Further properties of the driver *)

Section Batch.

Context (X : External).

Lemma dirs_made_app (evs1 evs2 : list (event X)) :
  dirs_made (evs1 ++ evs2) = dirs_made evs1 ++ dirs_made evs2.
Proof.
  induction evs1 as [|ev evs1 IH]; [reflexivity|].
  destruct ev; simpl; rewrite IH; reflexivity.
Qed.

Lemma open_dataset_no_dirs folder_name dataset_name :
  dirs_made (open_dataset X folder_name dataset_name).2 = [].
Proof.
  unfold open_dataset.
  destruct (load_dataset X dataset_name "train") as [[msg|msg]|dataset];
    [destruct (load_dataset_dict X dataset_name)| |]; reflexivity.
Qed.

Lemma collect_loop_no_dirs folder_name remaining i dataset_iter samples :
  dirs_made (collect_loop X folder_name remaining i dataset_iter samples).2 = [].
Proof.
  revert i dataset_iter samples.
  induction remaining as [|remaining IH]; intros i dataset_iter samples;
    [reflexivity|].
  destruct dataset_iter as [|[example|e] rest]; cbn [collect_loop].
  - reflexivity.
  - specialize (IH (S i) rest (samples ++ [example])).
    destruct (collect_loop X folder_name remaining (S i) rest _) as [r evs].
    cbn [snd] in *. rewrite dirs_made_app, IH.
    destruct (i mod 20 =? 0); reflexivity.
  - specialize (IH (S i) rest samples).
    destruct (collect_loop X folder_name remaining (S i) rest _) as [r evs].
    cbn [snd] in *. exact IH.
Qed.

Lemma collect_no_dirs folder_name total_samples dataset :
  dirs_made (collect X folder_name total_samples dataset).2 = [].
Proof.
  unfold collect.
  pose proof (collect_loop_no_dirs folder_name total_samples 0 dataset []) as H.
  destruct (collect_loop X folder_name total_samples 0 dataset []) as [r evs].
  cbn [snd] in *. cbn [dirs_made]. rewrite dirs_made_app, H. reflexivity.
Qed.

Lemma persist_no_dirs folder_name sample_dir i example :
  dirs_made (persist X folder_name sample_dir i example).2 = [].
Proof.
  unfold persist.
  destruct (find_image_field example) as [[fld data]|]; [|reflexivity].
  destruct (open_image X data); try reflexivity.
  destruct (image_save X img _); [reflexivity|].
  destruct (write_text X _ _); reflexivity.
Qed.

Lemma save_loop_no_dirs folder_name sample_dir i selected saved_count :
  dirs_made (save_loop X folder_name sample_dir i selected saved_count).2 = [].
Proof.
  revert i saved_count.
  induction selected as [|example rest IH]; intros i saved_count; [reflexivity|].
  rewrite save_loop_cons. cbn [snd].
  rewrite dirs_made_app, persist_no_dirs, IH. reflexivity.
Qed.

(** [select] cannot raise: the [min] of line 77 keeps the sample size
    within the population. *)
Lemma select_never_raises g samples sample_size :
  exists selected, (select X g samples sample_size).1 = Returned selected.
Proof.
  unfold select, random_sample.
  destruct (Nat.leb_spec (min sample_size (length samples)) (length samples));
    [|lia].
  destruct (sample_indices X g (length samples) _) as [idxs g'].
  eexists. reflexivity.
Qed.

(** What a dataset run does once its directory is created. *)
Lemma save_dataset_examples_returns dataset_name sample_size total_samples g :
  makedirs X (sample_dir_of dataset_name) = None ->
  exists n evs,
    (save_dataset_examples X dataset_name sample_size total_samples g).1
    = (Returned n, DirMade (sample_dir_of dataset_name) :: evs) /\
    dirs_made evs = [].
Proof.
  unfold sample_dir_of.
  intros Hdir. unfold save_dataset_examples. rewrite Hdir.
  pose proof (open_dataset_no_dirs (folder_of dataset_name) dataset_name) as Ho.
  destruct (open_dataset X _ _) as [[[dataset|splits]|] evs1];
    cbn [fst snd] in *.
  3:{ eexists _, _. split; [reflexivity|]. exact Ho. }
  2:{ destruct (save_split_names_returns_zero X (folder_of dataset_name)
                  ("samples_" +:+ folder_of dataset_name) splits
                  sample_size total_samples g) as [Hzero Hlogs].
      destruct (save_split_names X _ _ _ _ _ _) as [[r evs] g'].
      cbn [fst snd] in *. subst r.
      destruct (tagged_logs_only X _ _ Hlogs) as (_ & Hdirs & _).
      eexists _, _. split; [reflexivity|].
      repeat (rewrite ?dirs_made_app; cbn [app dirs_made]).
      rewrite Ho, Hdirs. reflexivity. }
  pose proof (collect_no_dirs (folder_of dataset_name) total_samples dataset) as Hc.
  destruct (collect X _ _ _) as [buffered evs2]; cbn [fst snd] in *.
  destruct (length buffered =? 0); cbn [fst snd].
  { eexists _, _. split; [reflexivity|].
    repeat (rewrite ?dirs_made_app; cbn [app dirs_made]).
    rewrite Ho, Hc. reflexivity. }
  destruct (select_never_raises g buffered sample_size) as [selected Hsel].
  destruct (select X g buffered sample_size) as [[selected'|e] g'];
    [|discriminate].
  pose proof (save_loop_no_dirs (folder_of dataset_name)
                ("samples_" +:+ folder_of dataset_name) 0 selected' 0) as Hs.
  destruct (save_loop X _ _ 0 _ 0) as [saved_count evs3]; cbn [fst snd] in *.
  eexists _, _. split; [reflexivity|].
  repeat (rewrite ?dirs_made_app; cbn [app dirs_made]).
  rewrite Ho, Hc, Hs. reflexivity.
Qed.

(** X13. An exception of [os.makedirs] leaves [save_dataset_examples],
    and nothing else has happened then: no load, no log entry, no use of
    the random generator.  Once the directory is created the function
    returns a count whatever [load_dataset], the deliveries of the stream,
    the opening and saving of images and the caption writes do, and
    [random.sample] is never asked for more than the buffer holds; the
    creation of the directory is the first effect and no other directory is
    created. *)
Theorem only_makedirs_raises dataset_name sample_size total_samples g :
  (forall e,
      makedirs X (sample_dir_of dataset_name) = Some e ->
      save_dataset_examples X dataset_name sample_size total_samples g
      = (Raised e, [], g)) /\
  (makedirs X (sample_dir_of dataset_name) = None ->
   exists n evs,
     (save_dataset_examples X dataset_name sample_size total_samples g).1
     = (Returned n, DirMade (sample_dir_of dataset_name) :: evs) /\
     dirs_made evs = []).
Proof.
  split.
  - unfold sample_dir_of. intros e He.
    unfold save_dataset_examples. rewrite He. reflexivity.
  - apply save_dataset_examples_returns.
Qed.

(** The driver over datasets whose directories can all be created. *)
Lemma process_loop_returns names total_success g :
  Forall (fun name => makedirs X (sample_dir_of name) = None) names ->
  exists n,
    (process_loop X names total_success g).1.1 = Returned n /\
    (total_success <= n /\ n <= total_success + length names) /\
    dirs_made (process_loop X names total_success g).1.2
    = map sample_dir_of names.
Proof.
  intros Hok. revert total_success g.
  induction Hok as [|name rest Hname _ IH]; intros total_success g.
  - exists total_success. simpl. repeat split; lia.
  - destruct (save_dataset_examples_returns name 10 100 g Hname)
      as (k & evs & Hrun & Hdirs).
    cbn [process_loop].
    destruct (save_dataset_examples X name 10 100 g) as [[r evs0] g'].
    cbn [fst] in Hrun. injection Hrun as -> ->.
    destruct (IH (if 0 <? k then S total_success else total_success) g')
      as (n & Hn & Hbound & Hrest).
    destruct (process_loop X rest _ g') as [[r' evs'] g''].
    cbn [fst snd] in *. exists n. split; [exact Hn|].
    split; [destruct (0 <? k); cbn [length]; lia|].
    destruct (0 <? k);
      repeat (rewrite ?dirs_made_app; cbn [app dirs_made map]);
      rewrite Hdirs, Hrest; reflexivity.
Qed.

(** The driver up to the first directory that cannot be created. *)
Lemma process_loop_aborts pre name rest e total_success g :
  Forall (fun name => makedirs X (sample_dir_of name) = None) pre ->
  makedirs X (sample_dir_of name) = Some e ->
  (process_loop X (pre ++ name :: rest) total_success g).1.1 = Raised e /\
  dirs_made (process_loop X (pre ++ name :: rest) total_success g).1.2
  = map sample_dir_of pre.
Proof.
  intros Hok Hfail. revert total_success g.
  induction Hok as [|first pre Hfirst _ IH]; intros total_success g.
  - cbn [app process_loop]. unfold sample_dir_of in Hfail.
    unfold save_dataset_examples. rewrite Hfail. split; reflexivity.
  - destruct (save_dataset_examples_returns first 10 100 g Hfirst)
      as (k & evs & Hrun & Hdirs).
    cbn [app process_loop].
    destruct (save_dataset_examples X first 10 100 g) as [[r evs0] g'].
    cbn [fst] in Hrun. injection Hrun as -> ->.
    destruct (IH (if 0 <? k then S total_success else total_success) g')
      as (Hraised & Hrest).
    destruct (process_loop X (pre ++ name :: rest) _ g') as [[r' evs'] g''].
    cbn [fst snd] in *. split; [exact Hraised|].
    destruct (0 <? k);
      repeat (rewrite ?dirs_made_app; cbn [app dirs_made map]);
      rewrite Hdirs, Hrest; reflexivity.
Qed.

(** X14. The driver attempts the datasets in the order of the list, each
    once, and failures of loading, streaming, decoding or writing never
    stop it: when every directory can be created it returns, having
    created the directory of every dataset in order, with a tally between
    its start value and that plus the number of datasets.  The first
    dataset whose directory cannot be created aborts the batch: the
    exception leaves the loop and the later datasets are never attempted. *)
Theorem driver_reach names total_success g :
  (Forall (fun name => makedirs X (sample_dir_of name) = None) names ->
   exists n,
     (process_loop X names total_success g).1.1 = Returned n /\
     (total_success <= n /\ n <= total_success + length names) /\
     dirs_made (process_loop X names total_success g).1.2
     = map sample_dir_of names) /\
  (forall pre name rest e,
      names = pre ++ name :: rest ->
      Forall (fun name => makedirs X (sample_dir_of name) = None) pre ->
      makedirs X (sample_dir_of name) = Some e ->
      (process_loop X names total_success g).1.1 = Raised e /\
      dirs_made (process_loop X names total_success g).1.2
      = map sample_dir_of pre).
Proof.
  split; [apply process_loop_returns|].
  intros pre name rest e -> Hok Hfail. apply process_loop_aborts; assumption.
Qed.

(** X15. With a credential the run logs in first, with that credential.
    If the login raises, the run ends there and no dataset is attempted.
    Otherwise, all directories being creatable, the run returns after
    attempting the seven datasets in order, creating [samples_redcaps],
    [samples_cc12m], [samples_wit], [samples_vg], [samples_sbu],
    [samples_cocokt], [samples_cc3m], and its last log entry is the tally
    [Successfully processed <n> out of 7 datasets] with [n <= 7]. *)
Theorem run_with_credential HF_API_KEY g :
  HF_API_KEY <> "" ->
  (forall e,
      hub_login X HF_API_KEY = Some e ->
      process_all_datasets X HF_API_KEY g = (Raised e, [], g)) /\
  (hub_login X HF_API_KEY = None ->
   Forall (fun name => makedirs X (sample_dir_of name) = None) datasets ->
   exists n evs,
     n <= 7 /\
     (process_all_datasets X HF_API_KEY g).1
     = (Returned tt,
        LoggedIn HF_API_KEY :: evs ++
        [Logged SUCCESS
           ("Successfully processed " +:+ str_nat n +:+ " out of 7 datasets")]) /\
     dirs_made evs
     = ["samples_redcaps"; "samples_cc12m"; "samples_wit"; "samples_vg";
        "samples_sbu"; "samples_cocokt"; "samples_cc3m"]).
Proof.
  intros Hkey. apply String.eqb_neq in Hkey.
  unfold process_all_datasets. rewrite Hkey. split.
  - intros e ->. reflexivity.
  - intros -> Hok.
    destruct (process_loop_returns datasets 0 g Hok) as (n & Hn & Hbound & Hdirs).
    destruct (process_loop X datasets 0 g) as [[r evs] g'].
    cbn [fst snd] in *. subst r.
    exists n, evs. split; [simpl in Hbound; lia|].
    split; [reflexivity | exact Hdirs].
Qed.

(** X16. A container with a [bytes] entry is handled exactly like the
    raw bytes it holds: a record whose image field is such a container is
    persisted with the same result and the same effects as a record with
    the bytes themselves in that field and the same text field. *)
Theorem container_bytes_like_raw_bytes
    folder_name sample_dir i example example' fld d b :
  find_image_field example = Some (fld, VDict d) ->
  dict_get d "bytes" = Some (VBytes b) ->
  find_image_field example' = Some (fld, VBytes b) ->
  find_text_field example' = find_text_field example ->
  persist X folder_name sample_dir i example
  = persist X folder_name sample_dir i example'.
Proof.
  intros Hfind Hbytes Hfind' Htext. unfold persist.
  rewrite Hfind, Hfind', Htext. cbn [open_image].
  rewrite dict_has_get, Hbytes.
  destruct (image_open X (VBytes b)); reflexivity.
Qed.

Lemma open_dataset_tagged folder_name dataset_name :
  Forall (is_tagged folder_name) (open_dataset X folder_name dataset_name).2.
Proof.
  unfold open_dataset.
  destruct (load_dataset X dataset_name "train") as [[msg|msg]|dataset];
    [destruct (load_dataset_dict X dataset_name)| |];
    repeat constructor; eexists; reflexivity.
Qed.

Lemma collect_loop_tagged folder_name remaining i dataset_iter samples :
  Forall (is_tagged folder_name)
         (collect_loop X folder_name remaining i dataset_iter samples).2.
Proof.
  revert i dataset_iter samples.
  induction remaining as [|remaining IH]; intros i dataset_iter samples;
    [constructor|].
  destruct dataset_iter as [|[example|e] rest]; cbn [collect_loop].
  - repeat constructor. eexists; reflexivity.
  - specialize (IH (S i) rest (samples ++ [example])).
    destruct (collect_loop X folder_name remaining (S i) rest _) as [r evs].
    cbn [snd] in *. apply Forall_app. split; [|exact IH].
    destruct (i mod 20 =? 0); repeat constructor. eexists; reflexivity.
  - specialize (IH (S i) rest samples).
    destruct (collect_loop X folder_name remaining (S i) rest _) as [r evs].
    cbn [snd] in *. constructor; [eexists; reflexivity | exact IH].
Qed.

Lemma collect_tagged folder_name total_samples dataset :
  Forall (is_tagged folder_name) (collect X folder_name total_samples dataset).2.
Proof.
  unfold collect.
  pose proof (collect_loop_tagged folder_name total_samples 0 dataset []) as H.
  destruct (collect_loop X folder_name total_samples 0 dataset []) as [r evs].
  cbn [snd] in *. constructor; [eexists; reflexivity|].
  apply Forall_app. split; [exact H|].
  repeat constructor. eexists; reflexivity.
Qed.

Lemma persist_tagged folder_name sample_dir i example :
  Forall (is_tagged folder_name) (persist X folder_name sample_dir i example).2.
Proof.
  unfold persist, sample_error.
  destruct (find_image_field example) as [[fld data]|];
    [|repeat constructor; eexists; reflexivity].
  destruct (open_image X data);
    try (repeat constructor; eexists; reflexivity).
  destruct (image_save X img _);
    [repeat constructor; eexists; reflexivity|].
  destruct (write_text X _ _);
    repeat constructor; eexists; reflexivity.
Qed.

Lemma save_loop_tagged folder_name sample_dir i selected saved_count :
  Forall (is_tagged folder_name)
         (save_loop X folder_name sample_dir i selected saved_count).2.
Proof.
  revert i saved_count.
  induction selected as [|example rest IH]; intros i saved_count; [constructor|].
  rewrite save_loop_cons. cbn [snd]. apply Forall_app.
  split; [apply persist_tagged | apply IH].
Qed.

(** X17. Every log entry written while a dataset is processed starts with
    the folder name of that dataset in brackets, so each warning and error
    can be attributed to its dataset. *)
Theorem logs_are_tagged dataset_name sample_size total_samples g :
  Forall (is_tagged (folder_of dataset_name))
         (save_dataset_examples X dataset_name sample_size total_samples g).1.2.
Proof.
  unfold save_dataset_examples.
  destruct (makedirs X _); [constructor|].
  pose proof (open_dataset_tagged (folder_of dataset_name) dataset_name) as Ho.
  destruct (open_dataset X _ _) as [[[dataset|splits]|] evs1];
    cbn [fst snd] in *.
  3:{ apply Forall_app. split; [|exact Ho].
      repeat constructor; eexists; reflexivity. }
  2:{ destruct (save_split_names_returns_zero X (folder_of dataset_name)
                  ("samples_" +:+ folder_of dataset_name) splits
                  sample_size total_samples g) as [_ Hlogs].
      destruct (save_split_names X _ _ _ _ _ _) as [[r evs] g'].
      cbn [fst snd] in *.
      destruct (tagged_logs_only X _ _ Hlogs) as (_ & _ & Htagged).
      apply Forall_app. split; [repeat constructor; eexists; reflexivity|].
      apply Forall_app. split; [exact Ho | exact Htagged]. }
  pose proof (collect_tagged (folder_of dataset_name) total_samples dataset) as Hc.
  destruct (collect X _ _ _) as [buffered evs2]; cbn [fst snd] in *.
  destruct (length buffered =? 0); cbn [fst snd].
  { repeat (apply Forall_app; split); try assumption;
      repeat constructor; eexists; reflexivity. }
  destruct (select X g buffered sample_size) as [[selected|e] g']; cbn [fst snd].
  2:{ repeat (apply Forall_app; split); try assumption;
        repeat constructor; eexists; reflexivity. }
  pose proof (save_loop_tagged (folder_of dataset_name)
                ("samples_" +:+ folder_of dataset_name) 0 selected 0) as Hs.
  destruct (save_loop X _ _ 0 _ 0) as [saved_count evs3]; cbn [fst snd] in *.
  repeat (apply Forall_app; split); try assumption;
    repeat constructor; eexists; reflexivity.
Qed.

End Batch.

Lemma only_makedirs_raises_witness :
  makedirs Fixture.locked_world (sample_dir_of "dandelin/wit")
  = Some (OtherException "Permission denied") /\
  save_dataset_examples Fixture.locked_world "dandelin/wit" 10 100 0
  = (Raised (OtherException "Permission denied"), [], 0) /\
  exists n,
    (save_dataset_examples Fixture.locked_world "dandelin/sbu" 10 100 0).1.1
    = Returned n.
Proof.
  split; [reflexivity|]. split.
  - exact (proj1 (only_makedirs_raises Fixture.locked_world "dandelin/wit" 10 100 0)
             _ eq_refl).
  - destruct (proj2 (only_makedirs_raises Fixture.locked_world "dandelin/sbu"
                       10 100 0) eq_refl) as (n & evs & Hrun & _).
    exists n. rewrite Hrun. reflexivity.
Defined.

Lemma driver_reach_witness :
  (process_loop Fixture.locked_world datasets 0 0).1.1
  = Raised (OtherException "Permission denied") /\
  dirs_made (process_loop Fixture.locked_world datasets 0 0).1.2
  = ["samples_redcaps"; "samples_cc12m"].
Proof.
  exact (proj2 (driver_reach Fixture.locked_world datasets 0 0)
           ["dandelin/redcaps"; "dandelin/cc12m"] "dandelin/wit"
           ["dandelin/vg"; "dandelin/sbu"; "dandelin/cocokt"; "dandelin/cc3m"]
           (OtherException "Permission denied")
           eq_refl
           ltac:(repeat constructor) eq_refl).
Defined.

Lemma run_with_credential_witness :
  "token" <> "" /\
  Forall (fun name => makedirs Fixture.world (sample_dir_of name) = None) datasets /\
  exists n evs,
    n <= 7 /\
    (process_all_datasets Fixture.world "token" 0).1
    = (Returned tt,
       LoggedIn "token" :: evs ++
       [Logged SUCCESS
          ("Successfully processed " +:+ str_nat n +:+ " out of 7 datasets")]).
Proof.
  assert (Hkey : "token" <> "") by discriminate.
  assert (Hok : Forall (fun name => makedirs Fixture.world (sample_dir_of name) = None)
                       datasets) by (repeat constructor).
  split; [exact Hkey|]. split; [exact Hok|].
  destruct (proj2 (run_with_credential Fixture.world "token" 0 Hkey) eq_refl Hok)
    as (n & evs & Hn & Hrun & _).
  exists n, evs. split; [exact Hn | exact Hrun].
Defined.

Lemma container_bytes_like_raw_bytes_witness :
  dict_get [("bytes", VBytes Fixture.jpeg); ("path", VNone)] "bytes"
  = Some (VBytes Fixture.jpeg) /\
  persist Fixture.world "sbu" "samples_sbu" 0
    [("image", VDict [("bytes", VBytes Fixture.jpeg); ("path", VNone)]);
     ("caption", VStr "a cat")]
  = persist Fixture.world "sbu" "samples_sbu" 0 Fixture.cat.
Proof.
  split; [reflexivity|].
  exact (container_bytes_like_raw_bytes Fixture.world "sbu" "samples_sbu" 0
           [("image", VDict [("bytes", VBytes Fixture.jpeg); ("path", VNone)]);
            ("caption", VStr "a cat")]
           Fixture.cat "image" [("bytes", VBytes Fixture.jpeg); ("path", VNone)]
           Fixture.jpeg eq_refl eq_refl eq_refl eq_refl).
Defined.

(** ** The fallback of lines 41-45 on a dataset without a [train] split *)

(** C8. The fallback does not reach a default split.  For a dataset
    without a [train] split the first call raises [ValueError] and the call
    without a split returns the dict of the splits; the warning of line 45
    is logged, but the examples buffered are the keys of that dict, the
    names [validation] and [test], and each of them fails in the saving
    loop: the dataset returns 0 and writes nothing, although both of its
    splits hold a record that can be saved. *)
Theorem fallback_iterates_split_names :
  load_dataset Fixture.world "dandelin/wit" "train"
  = inl (ValueError "Bad split: train") /\
  load_dataset_dict Fixture.world "dandelin/wit"
  = inr [("validation", [Fetched Fixture.cat]); ("test", [Fetched Fixture.cat])] /\
  (persist Fixture.world "wit" "samples_wit" 0 Fixture.cat).1 = true /\
  (collect_names Fixture.world "wit" 100 ["validation"; "test"]).1
  = ["validation"; "test"] /\
  save_dataset_examples Fixture.world "dandelin/wit" 10 100 0
  = (Returned 0,
     [DirMade "samples_wit";
      Logged INFO "[wit] Created folder to save samples: samples_wit";
      Logged INFO "[wit] Loading dataset in streaming mode...";
      LoadCall "dandelin/wit" (Some "train");
      LoadCall "dandelin/wit" None;
      Logged WARNING "[wit] 'train' split not found, using default split";
      Logged INFO "[wit] Starting to collect 100 samples...";
      Logged DEBUG "[wit] Loaded 0 samples...";
      Logged WARNING "[wit] No more samples available.";
      Logged SUCCESS "[wit] Successfully loaded 2 samples";
      Logged INFO "[wit] Randomly selected 2 out of 2 samples";
      Logged ERROR
        "[wit] Error processing sample 1: 'str' object has no attribute 'items'";
      Logged ERROR
        "[wit] Error processing sample 2: 'str' object has no attribute 'items'";
      Logged SUCCESS
        "[wit] Saved 0 images and captions to 'samples_wit' folder."],
     1).
Proof. repeat split. Qed.

Lemma open_dataset_attempts_witness :
  (open_dataset Fixture.world (folder_of "dandelin/vg") "dandelin/vg").1 = None /\
  (save_dataset_examples Fixture.world "dandelin/vg" 10 100 0).1.1 = Returned 0 /\
  (open_dataset Fixture.world (folder_of "dandelin/sbu") "dandelin/sbu").2
  = [LoadCall "dandelin/sbu" (Some "train")].
Proof.
  split; [reflexivity|]. split.
  - exact (proj1 (proj1 (proj2 (proj2 (proj2 (proj2
             (open_dataset_attempts Fixture.world "dandelin/vg")))))
             eq_refl eq_refl 10 100 0)).
  - rewrite (proj1 (proj2 (proj2
               (open_dataset_attempts Fixture.world "dandelin/sbu")))
               [Fetched Fixture.cat; Fetched Fixture.no_image; Fetched Fixture.cat]
               eq_refl).
    reflexivity.
Defined.

Lemma fallback_never_saves_witness :
  makedirs Fixture.world (sample_dir_of "dandelin/wit") = None /\
  load_dataset Fixture.world "dandelin/wit" "train"
  = inl (ValueError "Bad split: train") /\
  (save_dataset_examples Fixture.world "dandelin/wit" 10 100 0).1.1 = Returned 0.
Proof.
  split; [reflexivity|]. split; [reflexivity|].
  exact (proj1 (proj2 (proj2 (proj2
           (fallback_never_saves Fixture.world "dandelin/wit" 10 100 0
              "Bad split: train"
              [("validation", [Fetched Fixture.cat]); ("test", [Fetched Fixture.cat])]
              eq_refl eq_refl eq_refl))))).
Defined.
